(** * blogs-script: the batch enrichment pipeline of [server.js]

    A shallow embedding of the three parts of [server.js] that carry logic:
    - the identifier-set parser (the top-level [idList] computation),
    - the content generator [processDataWithAI],
    - the batch orchestrator [processEntries].

    The collaborators the script talks to (the Supabase tables, the
    OpenRouter endpoint reached through axios, the platform's [JSON.parse])
    are gathered in an environment record; everything else is computed. *)

From Stdlib Require Import ZArith NArith List String Ascii Bool Lia.
Import ListNotations.

Open Scope string_scope.
Open Scope Z_scope.

(** ** The JavaScript layer: strings, numbers, values *)

Module JS.

(** Strings are sequences of code units; the embedding covers the strings
    whose code units are below 256, written as Rocq strings. *)

Definition code (c : ascii) : N := N_of_ascii c.

(** [WhiteSpace] and [LineTerminator] code units below 256: TAB, LF, VT, FF,
    CR, SP and NBSP. These are what [String.prototype.trim] removes and what
    [Number] skips around a numeric literal. *)
Definition is_white_space (c : ascii) : bool :=
  existsb (N.eqb (code c)) [9; 10; 11; 12; 13; 32; 160]%N.

Fixpoint trimStart (s : string) : string :=
  match s with
  | String c s' => if is_white_space c then trimStart s' else s
  | EmptyString => EmptyString
  end.

Fixpoint trimEnd (s : string) : string :=
  match s with
  | String c s' =>
      match trimEnd s' with
      | EmptyString => if is_white_space c then EmptyString else String c EmptyString
      | t => String c t
      end
  | EmptyString => EmptyString
  end.

(** [s.trim()] *)
Definition trim (s : string) : string := trimEnd (trimStart s).

(** [s.includes(sep)] for a one-character [sep]. *)
Fixpoint includes (sep : ascii) (s : string) : bool :=
  match s with
  | String c s' => Ascii.eqb c sep || includes sep s'
  | EmptyString => false
  end.

(** [s.split(sep)] for a one-character [sep]: never empty, one more piece
    than there are separators, empty pieces kept. *)
Fixpoint split (sep : ascii) (s : string) : list string :=
  match s with
  | String c s' =>
      if Ascii.eqb c sep then EmptyString :: split sep s'
      else match split sep s' with
           | t :: ts => String c t :: ts
           | [] => [String c EmptyString]
           end
  | EmptyString => [EmptyString]
  end.

(** [pieces.join(sep)] *)
Fixpoint join (sep : string) (pieces : list string) : string :=
  match pieces with
  | [] => EmptyString
  | [t] => t
  | t :: ts => t ++ sep ++ join sep ts
  end.

(** [s.slice(0, n)]: the first [n] code units, all of [s] when it is
    shorter. *)
Fixpoint slice0 (n : nat) (s : string) : string :=
  match n, s with
  | S k, String c s' => String c (slice0 k s')
  | _, _ => EmptyString
  end.

Fixpoint drop (n : nat) (s : string) : string :=
  match n, s with
  | S k, String _ s' => drop k s'
  | _, _ => s
  end.

Fixpoint startsWith (p s : string) : bool :=
  match p, s with
  | EmptyString, _ => true
  | String a p', String b s' => Ascii.eqb a b && startsWith p' s'
  | String _ _, EmptyString => false
  end.

(** *** Numbers

    A JavaScript number is an IEEE-754 double. The embedding keeps the part
    of a double the script depends on:
    - [NaN];
    - [Int z], the double equal to the integer [z], for [|z| <= 2^53] (every
      such integer is a double; the two zeros are both [Int 0]);
    - [Other], some double that is neither [NaN] nor zero and whose value is
      not tracked (a fraction, a magnitude above [2^53], an infinity).
    Arithmetic is exact on [Int] as long as the result stays within
    [2^53]; where the result depends on rounding or on an untracked operand
    it is not determined here and the operation answers [None]. *)

Inductive number : Type :=
  | NaN
  | Int (z : Z)
  | Other.

Definition MAX_SAFE : Z := 2 ^ 53.

Definition safe (z : Z) : bool := Z.abs z <=? MAX_SAFE.

Definition exact (z : Z) : option number :=
  if safe z then Some (Int z) else None.

(** [a - b] *)
Definition sub (a b : number) : option number :=
  match a, b with
  | NaN, _ | _, NaN => Some NaN
  | Int x, Int y => exact (x - y)
  | _, _ => None
  end.

(** [a + b] on numbers *)
Definition add (a b : number) : option number :=
  match a, b with
  | NaN, _ | _, NaN => Some NaN
  | Int x, Int y => exact (x + y)
  | _, _ => None
  end.

(** *** [Number(string)]: the StringToNumber grammar *)

Definition digit_of (base : N) (c : ascii) : option N :=
  (let n := code c in
   let d := if (48 <=? n) && (n <=? 57) then Some (n - 48)
            else if (97 <=? n) && (n <=? 102) then Some (n - 87)
            else if (65 <=? n) && (n <=? 70) then Some (n - 55)
            else None in
   match d with
   | Some v => if v <? base then Some v else None
   | None => None
   end)%N.

(** Reads the longest run of digits of the given base: the value
    accumulated, how many digits were read, and what follows them. *)
Fixpoint digits (base acc : N) (cnt : nat) (s : string) : N * nat * string :=
  match s with
  | String c s' =>
      match digit_of base c with
      | Some d => digits base (acc * base + d)%N (S cnt) s'
      | None => (acc, cnt, s)
      end
  | EmptyString => (acc, cnt, s)
  end.

(** The double nearest to [m * 10^e] for a natural [m], as far as it is
    tracked: an exact integer within [2^53], zero when the value rounds to
    zero (at most [2^-1075], half the least subnormal), [Other] otherwise. *)
Definition of_decimal (negative : bool) (m : N) (e : Z) : number :=
  let sign := if negative then (-1) else 1 in
  let m := Z.of_N m in
  if m =? 0 then Int 0
  else if 0 <=? e then
    let v := m * 10 ^ e in
    if v <=? MAX_SAFE then Int (sign * v) else Other
  else
    let d := 10 ^ (- e) in
    if m mod d =? 0 then
      let v := m / d in
      if v <=? MAX_SAFE then Int (sign * v) else Other
    else if m * 2 ^ 1075 <=? d then Int 0
    else Other.

(** [ExponentPart opt] followed by the end of the string. *)
Definition exponent_part (s : string) : option Z :=
  match s with
  | EmptyString => Some 0
  | String c s' =>
      if Ascii.eqb c "e" || Ascii.eqb c "E" then
        let '(negative, s'') :=
          match s' with
          | String "+" r => (false, r)
          | String "-" r => (true, r)
          | _ => (false, s')
          end in
        match digits 10 0 0 s'' with
        | (v, S _, EmptyString) => Some (if negative then - Z.of_N v else Z.of_N v)
        | _ => None
        end
      else None
  end.

(** [StrUnsignedDecimalLiteral] other than [Infinity]. *)
Definition unsigned_decimal (negative : bool) (s : string) : number :=
  let '(ip, ni, r1) := digits 10 0 0 s in
  let '(m, nf, r2) :=
    match r1 with
    | String "." r => digits 10 ip 0 r
    | _ => (ip, O, r1)
    end in
  match ni, nf with
  | O, O => NaN
  | _, _ =>
      match exponent_part r2 with
      | Some e => of_decimal negative m (e - Z.of_nat nf)
      | None => NaN
      end
  end.

(** [StrDecimalLiteral]: an optional sign, then [Infinity] or digits. *)
Definition decimal_literal (s : string) : number :=
  let '(negative, r) :=
    match s with
    | String "+" r => (false, r)
    | String "-" r => (true, r)
    | _ => (false, s)
    end in
  if String.eqb r "Infinity" then Other else unsigned_decimal negative r.

(** [NonDecimalIntegerLiteral]: [0x], [0o], [0b] in either case, unsigned. *)
Definition radix_literal (s : string) : option number :=
  match s with
  | String "0" (String p r) =>
      let base :=
        if Ascii.eqb p "x" || Ascii.eqb p "X" then Some 16%N
        else if Ascii.eqb p "o" || Ascii.eqb p "O" then Some 8%N
        else if Ascii.eqb p "b" || Ascii.eqb p "B" then Some 2%N
        else None in
      match base with
      | Some b =>
          match digits b 0 0 r with
          | (v, S _, EmptyString) =>
              Some (if Z.of_N v <=? MAX_SAFE then Int (Z.of_N v) else Other)
          | _ => Some NaN
          end
      | None => None
      end
  | _ => None
  end.

(** [Number(s)] for a string [s]. *)
Definition Number (s : string) : number :=
  let t := trim s in
  match t with
  | EmptyString => Int 0
  | _ =>
      match radix_literal t with
      | Some n => n
      | None => decimal_literal t
      end
  end.

(** *** The text of a number, and how long a string may be

    [String(n)], which [join] and a template literal apply to a number,
    writes an integer below [10^21] in magnitude as its decimal digits, with
    a minus sign in front when it is negative, and [NaN] as the three
    letters NaN. The script only depends on how many code units the text
    has; the text of an untracked number is not determined here. *)

(** The number of decimal digits of [n], for [0 <= n < 10^(fuel+1)]. *)
Fixpoint count_digits (fuel : nat) (n : Z) : Z :=
  match fuel with
  | O => 1
  | S k => if n <? 10 then 1 else 1 + count_digits k (n / 10)
  end.

(** The length of [String(n)]; an integer within [2^53] has at most 16
    digits. *)
Definition text_length (n : number) : option Z :=
  match n with
  | NaN => Some 3
  | Int z =>
      if safe z then Some ((if z <? 0 then 1 else 0) + count_digits 16 (Z.abs z))
      else None
  | Other => None
  end.

(** The length of [ids.join(", ")]: the texts and a two-character separator
    between neighbours. *)
Fixpoint join_length (ids : list number) : option Z :=
  match ids with
  | [] => Some 0
  | [x] => text_length x
  | x :: rest =>
      match text_length x, join_length rest with
      | Some a, Some b => Some (a + 2 + b)
      | _, _ => None
      end
  end.

(** The longest string V8 builds on a 64-bit platform, Node's
    [buffer.constants.MAX_STRING_LENGTH]; a concatenation or a [join] whose
    result would be longer throws a [RangeError] (invalid string length). *)
Definition MAX_STRING_LENGTH : Z := 2 ^ 29 - 24.

(** *** Values

    The values that reach the script: what [JSON.parse] and axios build from
    a JSON text, [undefined] for a missing property, and strings. *)

#[local] Unset Elimination Schemes.
Inductive value : Type :=
  | VUndefined
  | VNull
  | VBool (b : bool)
  | VNumber (n : number)
  | VString (s : string)
  | VArray (items : list value)
  | VObject (fields : list (string * value)).
#[local] Set Elimination Schemes.

(** [ToBoolean]: what [!v] and [v || w] test. *)
Definition truthy (v : value) : bool :=
  match v with
  | VUndefined | VNull => false
  | VBool b => b
  | VNumber NaN | VNumber (Int 0) => false
  | VNumber _ => true
  | VString EmptyString => false
  | VString _ => true
  | VArray _ | VObject _ => true
  end.

(** [typeof v === "string"] *)
Definition is_string (v : value) : bool :=
  match v with
  | VString _ => true
  | _ => false
  end.

(** [v === undefined || v === null], the test of [?.] *)
Definition nullish (v : value) : bool :=
  match v with
  | VUndefined | VNull => true
  | _ => false
  end.

(** What a [throw] carries. *)
Inductive thrown : Type :=
  | TypeError
  | SyntaxError
  | RangeError
  | AxiosError (message : string) (response_data : option value).

(** How an evaluation ends. *)
Inductive completion (A : Type) : Type :=
  | Normal (a : A)
  | Throw (e : thrown).
Arguments Normal {A} a.
Arguments Throw {A} e.

Fixpoint lookup (k : string) (fields : list (string * value)) : value :=
  match fields with
  | [] => VUndefined
  | (k', v) :: rest => if String.eqb k k' then v else lookup k rest
  end.

(** [v.k] for a property name [k] that no prototype defines, which holds
    for every name the script reads ([choices], [message], [content],
    [main_title], [main_description], [read_more_titles],
    [read_more_descriptions]): an own property of an object, [undefined] on
    any other value, a [TypeError] on [undefined] and [null]. *)
Definition get (v : value) (k : string) : completion value :=
  match v with
  | VUndefined | VNull => Throw TypeError
  | VObject fields => Normal (lookup k fields)
  | _ => Normal VUndefined
  end.

(** [v[0]] *)
Definition get0 (v : value) : completion value :=
  match v with
  | VUndefined | VNull => Throw TypeError
  | VArray items => Normal (hd VUndefined items)
  | VString (String c _) => Normal (VString (String c EmptyString))
  | VObject fields => Normal (lookup "0" fields)
  | _ => Normal VUndefined
  end.

(** [v.trim()]: only strings have the method; calling the [undefined]
    found on any other value is a [TypeError]. *)
Definition call_trim (v : value) : completion string :=
  match v with
  | VString s => Normal (trim s)
  | _ => Throw TypeError
  end.

(** [v.slice(0, n)] *)
Definition call_slice0 (n : nat) (v : value) : completion string :=
  match v with
  | VString s => Normal (slice0 n s)
  | _ => Throw TypeError
  end.

(** [s.replace(/```json|```/g, "")]: scanning from the left, at each position
    the first alternative that matches is removed and the scan resumes after
    it. [skip] counts the code units of a match still to be dropped. *)
Fixpoint remove_fences (skip : nat) (s : string) : string :=
  match s with
  | EmptyString => EmptyString
  | String c s' =>
      match skip with
      | S k => remove_fences k s'
      | O =>
          if startsWith "```json" s then remove_fences 6 s'
          else if startsWith "```" s then remove_fences 2 s'
          else String c (remove_fences 0 s')
      end
  end.

Definition replace_fences (s : string) : string := remove_fences 0 s.

End JS.

(** ** The identifier-set parser (lines 25-36) *)

Module Parser.
Import JS.

(** What the top-level statements leave behind: the identifier list the
    batch will run over, the exit through [process.exit(1)] on an
    unrecognised format, the [RangeError] that [Array.from] raises for a
    length above [2^32 - 1], or a result the number embedding does not
    determine. *)
Inductive parsed : Type :=
  | Ids (ids : list number)
  | InvalidFormat
  | InvalidArrayLength
  | Untracked.

(** [process.argv.slice(2).join("")] *)
Definition args_of (argv : list string) : string :=
  join "" (skipn 2 argv).

(** [ToLength]: [NaN] and negatives give 0, the cap is [2^53 - 1]. *)
Definition ToLength (n : number) : option Z :=
  match n with
  | NaN => Some 0
  | Int z => Some (Z.min (Z.max z 0) (MAX_SAFE - 1))
  | Other => None
  end.

Definition MAX_ARRAY_LENGTH : Z := 2 ^ 32 - 1.

(** The elements [f 0, ..., f (n-1)], when each is determined. *)
Fixpoint tabulate (f : Z -> option number) (i : Z) (n : nat) : option (list number) :=
  match n with
  | O => Some []
  | S k =>
      match f i, tabulate f (i + 1) k with
      | Some x, Some xs => Some (x :: xs)
      | _, _ => None
      end
  end.

(** [Array.from({ length: len }, (_, i) => f i)] *)
Definition Array_from (len : option number) (f : Z -> option number) : parsed :=
  match len with
  | None => Untracked
  | Some len =>
      match ToLength len with
      | None => Untracked
      | Some n =>
          if MAX_ARRAY_LENGTH <? n then InvalidArrayLength
          else match tabulate f 0 (Z.to_nat n) with
               | Some ids => Ids ids
               | None => Untracked
               end
      end
  end.

Definition bind_num (a : option number) (k : number -> option number) : option number :=
  match a with
  | Some x => k x
  | None => None
  end.

(** The [if / else if / else] of lines 28-36 on [args]. In the range branch
    [const [min, max] = ...] takes the first two pieces of the split (there
    are at least two because [args] holds a dash; a missing one would be
    [undefined], which arithmetic reads as [NaN]). *)
Definition idList (args : string) : parsed :=
  if includes "-" args then
    let pieces := map Number (split "-" args) in
    let min := nth 0 pieces NaN in
    let max := nth 1 pieces NaN in
    Array_from (bind_num (sub max min) (fun d => add d (Int 1)))
               (fun i => add min (Int i))
  else if includes "," args then
    Ids (map Number (split "," args))
  else
    InvalidFormat.

End Parser.

(** ** The collaborators and the effects of the script *)

Module World.
Import JS.

(** A row of the source table as the query of line 112 projects it; the
    three text columns may hold SQL [NULL]. *)
Record source_row : Type := {
  id : number;
  question : option string;
  answer : option string;
  category_display_name : option string
}.

(** The object passed to [insert] on lines 137-143. *)
Record dest_row : Type := {
  dest_category_display_name : option string;
  title : value;
  description : value;
  read_more_titles : value;
  read_more_texts : value
}.

(** The [{ data, error }] a Supabase query resolves to; [error] carries its
    [message]. *)
Record select_result : Type := {
  data : option (list source_row);
  error : option string
}.

(** How [axios.post] settles: fulfilled with the [response.data] of a 2xx
    answer, or rejected with an [AxiosError] ([error.message], and
    [error.response.data] when the server answered). *)
Inductive http_outcome : Type :=
  | Fulfilled (response_data : value)
  | Rejected (message : string) (response_data : option value).

(** The collaborators, each answering every request, as a function of it:
    - [select_eq id]: [supabase.from(fromTable).select(...).eq("id", id)];
    - [insert row]: the [error] of [supabase.from(toTable).insert(row)];
    - [axios_post content]: the completion request of lines 47-85, whose only
      varying part is the user message [content];
    - [JSON_parse s]: [JSON.parse(s)], [None] when it throws a
      [SyntaxError]. *)
Record Env : Type := {
  select_eq : number -> select_result;
  insert : dest_row -> option string;
  axios_post : string -> http_outcome;
  JSON_parse : string -> option value
}.

(** The lines the script writes to the console. *)
Inductive line : Type :=
  | InvalidIDFormat
  | ProcessingIDs (ids : list number)
  | InvalidInputText (text : value)
  | JSONParseError
  | RawJSONString (jsonString : string)
  | OpenRouterError (e : thrown)
  | FullAPIError (response_data : value)
  | ErrorFetching (id : number) (message : string)
  | NoDataFound (id : number)
  | ProcessingEntry (id : number)
  | NoValidContent (id : number)
  | ErrorInserting (id : number) (message : string)
  | Saved (id : number).

(** What the script does to the outside, in order. *)
Inductive event : Type :=
  | ConsoleLog (l : line)
  | ConsoleError (l : line)
  | Select (id : number)
  | Post (content : string)
  | Insert (row : dest_row).

(** A computation: the events it performed and how it ended. *)
Definition M (A : Type) : Type := list event * completion A.

Definition ret {A} (a : A) : M A := ([], Normal a).

Definition bind {A B} (m : M A) (k : A -> M B) : M B :=
  match m with
  | (t, Normal a) => let '(t', r) := k a in ((t ++ t')%list, r)
  | (t, Throw e) => (t, Throw e)
  end.

Definition emit (e : event) : M unit := ([e], Normal tt).

Definition lift {A} (c : completion A) : M A := ([], c).

(** [try { body } catch (e) { handler e }] *)
Definition try_catch {A} (body : M A) (handler : thrown -> M A) : M A :=
  match body with
  | (t, Normal a) => (t, Normal a)
  | (t, Throw e) => let '(t', r) := handler e in ((t ++ t')%list, r)
  end.

(** [for (const x of l) { body x }] *)
Fixpoint for_of {A} (l : list A) (body : A -> M unit) : M unit :=
  match l with
  | [] => ret tt
  | x :: rest => bind (body x) (fun _ => for_of rest body)
  end.

Definition trace {A} (m : M A) : list event := fst m.
Definition result {A} (m : M A) : completion A := snd m.

(** The user messages sent to the completion endpoint. *)
Fixpoint posts (t : list event) : list string :=
  match t with
  | Post c :: t' => c :: posts t'
  | _ :: t' => posts t'
  | [] => []
  end.

(** The rows handed to the destination table. *)
Fixpoint inserts (t : list event) : list dest_row :=
  match t with
  | Insert r :: t' => r :: inserts t'
  | _ :: t' => inserts t'
  | [] => []
  end.

(** The identifiers queried in the source table. *)
Fixpoint selects (t : list event) : list number :=
  match t with
  | Select i :: t' => i :: selects t'
  | _ :: t' => selects t'
  | [] => []
  end.

End World.

Declare Scope js_scope.
Delimit Scope js_scope with js.
Notation "x <- c1 ;; c2" := (World.bind c1 (fun x => c2))
  (at level 61, c1 at next level, right associativity) : js_scope.
Notation "c1 ;; c2" := (World.bind c1 (fun _ => c2))
  (at level 61, right associativity) : js_scope.

(** ** The content generator (lines 40-106) *)

Module Generator.
Import JS World.
Open Scope js_scope.

(** [await axios.post(...)] with [content] as the user message. *)
Definition post (env : Env) (content : string) : M value :=
  emit (Post content) ;;
  match axios_post env content with
  | Fulfilled d => ret d
  | Rejected message r => lift (Throw (AxiosError message r))
  end.

(** [v?.k] and [v?.[0]] inside a chain: a nullish [v] ends the chain with
    [undefined]. *)
Definition chain (v : value) (k : value -> M value) : M value :=
  if nullish v then ret VUndefined else k v.

(** Line 87: [response.data.choices?.[0]?.message?.content || "{}"] *)
Definition completion_content (response_data : value) : M value :=
  content <- (choices <- lift (get response_data "choices") ;;
              chain choices (fun choices =>
              first <- lift (get0 choices) ;;
              chain first (fun first =>
              message <- lift (get first "message") ;;
              chain message (fun message =>
              lift (get message "content"))))) ;;
  ret (if truthy content then content else VString "{}").

(** Lines 92-98: [JSON.parse] in its own [try]; a [SyntaxError] is logged
    with the string and gives [null]. *)
Definition parse_or_null (env : Env) (jsonString : string) : M value :=
  try_catch
    (match JSON_parse env jsonString with
     | Some v => ret v
     | None => lift (Throw SyntaxError)
     end)
    (fun parseError =>
       emit (ConsoleError JSONParseError) ;;
       emit (ConsoleLog (RawJSONString jsonString)) ;;
       ret VNull).

(** Lines 88-98: trim, remove the fence markers, trim, parse. *)
Definition strip_and_parse (env : Env) (aiResponse : value) : M value :=
  jsonString <- lift (call_trim aiResponse) ;;
  let jsonString := trim (replace_fences jsonString) in
  parse_or_null env jsonString.

(** The [try] block of lines 46-98. *)
Definition attempt (env : Env) (text : value) : M value :=
  content <- lift (call_slice0 1000 text) ;;
  response_data <- post env content ;;
  aiResponse <- completion_content response_data ;;
  strip_and_parse env aiResponse.

(** The [catch] of lines 99-105: logs, then [null], whatever was thrown. *)
Definition on_error (error : thrown) : M value :=
  emit (ConsoleError (OpenRouterError error)) ;;
  match error with
  | AxiosError _ (Some response_data) =>
      emit (ConsoleLog (FullAPIError response_data))
  | _ => ret tt
  end ;;
  ret VNull.

(** [processDataWithAI(text)] *)
Definition processDataWithAI (env : Env) (text : value) : M value :=
  if negb (truthy text) || negb (is_string text) then
    emit (ConsoleError (InvalidInputText text)) ;;
    ret VNull
  else
    try_catch (attempt env text) on_error.

End Generator.

(** ** The batch orchestrator (lines 108-152) and the script around it *)

Module Orchestrator.
Import JS World Generator.
Open Scope js_scope.

(** [`${x}`] for a nullable text column. *)
Definition text_of (x : option string) : string :=
  match x with
  | Some s => s
  | None => "null"
  end.

(** Line 129: [`${question} ${answer} ${category_display_name}`] *)
Definition prompt (entry : source_row) : string :=
  text_of (question entry) ++ " " ++ text_of (answer entry) ++ " "
  ++ text_of (category_display_name entry).

(** Line 132: [!blogContent || !blogContent.main_title ||
    !blogContent.main_description] *)
Definition rejected (blogContent : value) : M bool :=
  if negb (truthy blogContent) then ret true
  else
    main_title <- lift (get blogContent "main_title") ;;
    if negb (truthy main_title) then ret true
    else
      main_description <- lift (get blogContent "main_description") ;;
      ret (negb (truthy main_description)).

(** Lines 137-143: the row built from the entry and the content. *)
Definition build_row (entry : source_row) (blogContent : value) : M dest_row :=
  main_title <- lift (get blogContent "main_title") ;;
  main_description <- lift (get blogContent "main_description") ;;
  titles <- lift (get blogContent "read_more_titles") ;;
  descriptions <- lift (get blogContent "read_more_descriptions") ;;
  ret {| dest_category_display_name := category_display_name entry;
         title := main_title;
         description := main_description;
         read_more_titles := titles;
         read_more_texts := descriptions |}.

(** The body of the loop for one identifier; each [continue] is the end of
    a branch. *)
Definition process_entry (env : Env) (id : number) : M unit :=
  emit (Select id) ;;
  let r := select_eq env id in
  match error r with
  | Some message => emit (ConsoleError (ErrorFetching id message))
  | None =>
      match data r with
      | None | Some [] => emit (ConsoleLog (NoDataFound id))
      | Some (entry :: _) =>
          emit (ConsoleLog (ProcessingEntry id)) ;;
          blogContent <- processDataWithAI env (VString (prompt entry)) ;;
          skip <- rejected blogContent ;;
          if skip then emit (ConsoleLog (NoValidContent id))
          else
            row <- build_row entry blogContent ;;
            emit (Insert row) ;;
            match insert env row with
            | Some message => emit (ConsoleError (ErrorInserting id message))
            | None => emit (ConsoleLog (Saved id))
            end
      end
  end.

(** [processEntries()] over the identifier list. *)
Definition processEntries (env : Env) (idList : list number) : M unit :=
  for_of idList (process_entry env).

(** How the script stands after its top-level statements and the batch:
    exited, stopped by an uncaught exception, or serving (line 157). *)
Inductive status : Type :=
  | Exited (code : Z)
  | Uncaught (e : thrown)
  | Serving
  | Undetermined.

(** Line 38: the length of the template literal, which puts 19 code units
    (the magnifying glass, a surrogate pair, and [ Processing IDs: ]) in
    front of [idList.join(", ")]. *)
Definition log_line_length (ids : list number) : option Z :=
  match join_length ids with
  | Some n => Some (19 + n)
  | None => None
  end.

(** Lines 25-38 and 154, once the configuration check of line 18 has
    passed. The line of line 38 is built before anything is logged: when it
    would be longer than a string can be, the [RangeError] of [join] or of
    the template literal is uncaught; with an identifier whose text is not
    tracked the length, and so the outcome, is not determined here. *)
Definition script (env : Env) (argv : list string) : list event * status :=
  match Parser.idList (Parser.args_of argv) with
  | Parser.InvalidFormat => ([ConsoleError InvalidIDFormat], Exited 1)
  | Parser.InvalidArrayLength => ([], Uncaught RangeError)
  | Parser.Untracked => ([], Undetermined)
  | Parser.Ids ids =>
      match log_line_length ids with
      | None => ([], Undetermined)
      | Some n =>
          if MAX_STRING_LENGTH <? n then ([], Uncaught RangeError)
          else
            let '(t, r) := processEntries env ids in
            (ConsoleLog (ProcessingIDs ids) :: t,
             match r with
             | Normal _ => Serving
             | Throw e => Uncaught e
             end)
      end
  end.

End Orchestrator.

(** ** The vocabulary of the properties *)

Module Spec.
Import JS World Generator Orchestrator.

(** [lo, lo+1, ...]: [n] consecutive integers. *)
Fixpoint upfrom (lo : Z) (n : nat) : list Z :=
  match n with
  | O => []
  | S k => lo :: upfrom (lo + 1) k
  end.

(** The inclusive ascending sequence [lo, lo+1, ..., hi]. *)
Definition inclusive (lo hi : Z) : list Z := upfrom lo (Z.to_nat (hi - lo + 1)).

(** How many times [sep] occurs in [s]. *)
Fixpoint count (sep : ascii) (s : string) : nat :=
  match s with
  | String c s' => (if Ascii.eqb c sep then 1 else 0) + count sep s'
  | EmptyString => O
  end.

(** The numeral written with the decimal digits [ds], most significant
    first, and the natural number it denotes. *)
Fixpoint numeral (ds : list N) : string :=
  match ds with
  | [] => EmptyString
  | d :: ds' => String (ascii_of_N (48 + d)) (numeral ds')
  end.

Definition base10 (ds : list N) : N :=
  fold_left (fun acc d => acc * 10 + d)%N ds 0%N.

(** A decimal digit. *)
Definition is_digit (d : N) : Prop := (d < 10)%N.

(** A code unit a numeric literal can start with: a decimal digit, a sign,
    the decimal point, or the I of Infinity. *)
Definition starts_literal (c : ascii) : bool :=
  match digit_of 10 c with
  | Some _ => true
  | None => existsb (Ascii.eqb c) ["+"; "-"; "."; "I"]%char
  end.

(** A string of white space only. *)
Fixpoint all_white (s : string) : bool :=
  match s with
  | String c s' => is_white_space c && all_white s'
  | EmptyString => true
  end.

(** The string handed to [JSON.parse] for the completion text [s]. *)
Definition cleaned (s : string) : string := trim (replace_fences (trim s)).

(** A completion text between [```json] and [```], with any white space
    (possibly none) inside the markers. *)
Definition fenced (w1 w2 body : string) : string :=
  "```json" ++ w1 ++ body ++ w2 ++ "```".

Definition LF : string := String "010" EmptyString.

(** The generator never touches the tables. *)
Definition no_table_event (t : list event) : Prop :=
  inserts t = [] /\ selects t = [].

(** What [v.k] reads on a value that is neither [undefined] nor [null]. *)
Definition field (v : value) (k : string) : value :=
  match v with
  | VObject fields => lookup k fields
  | _ => VUndefined
  end.

(** The content passes the check of line 132. *)
Definition accepted (v : value) : bool :=
  truthy v && truthy (field v "main_title") && truthy (field v "main_description").

Definition row_of (entry : source_row) (v : value) : dest_row :=
  {| dest_category_display_name := category_display_name entry;
     title := field v "main_title";
     description := field v "main_description";
     read_more_titles := field v "read_more_titles";
     read_more_texts := field v "read_more_descriptions" |}.

(** The value a computation returned. *)
Definition returned (m : M value) : value :=
  match result m with
  | Normal v => v
  | Throw _ => VUndefined
  end.

(** What the generator returns for an entry. *)
Definition generated (env : Env) (entry : source_row) : value :=
  returned (processDataWithAI env (VString (prompt entry))).

(** The events of one identifier, stage by stage. *)
Definition entry_trace (env : Env) (id : number) : list event :=
  Select id ::
  match error (select_eq env id) with
  | Some message => [ConsoleError (ErrorFetching id message)]
  | None =>
      match data (select_eq env id) with
      | None | Some [] => [ConsoleLog (NoDataFound id)]
      | Some (entry :: _) =>
          (ConsoleLog (ProcessingEntry id)
           :: trace (processDataWithAI env (VString (prompt entry)))
           ++ (let v := generated env entry in
               if accepted v then
                 [Insert (row_of entry v);
                  match insert env (row_of entry v) with
                  | Some message => ConsoleError (ErrorInserting id message)
                  | None => ConsoleLog (Saved id)
                  end]
               else [ConsoleLog (NoValidContent id)]))%list
      end
  end.

(** The rows the destination table accepted. *)
Definition stored (env : Env) (t : list event) : list dest_row :=
  filter (fun r => match insert env r with None => true | Some _ => false end)
         (inserts t).

(** The stages at which an identifier can fail. *)
Inductive failure (env : Env) (id : number) : Prop :=
  | FetchError (message : string) :
      error (select_eq env id) = Some message -> failure env id
  | NotFound :
      error (select_eq env id) = None ->
      data (select_eq env id) = None \/ data (select_eq env id) = Some [] ->
      failure env id
  | InvalidContent (entry : source_row) (rest : list source_row) :
      error (select_eq env id) = None ->
      data (select_eq env id) = Some (entry :: rest) ->
      accepted (generated env entry) = false -> failure env id
  | InsertError (entry : source_row) (rest : list source_row) (message : string) :
      error (select_eq env id) = None ->
      data (select_eq env id) = Some (entry :: rest) ->
      accepted (generated env entry) = true ->
      insert env (row_of entry (generated env entry)) = Some message ->
      failure env id.

End Spec.

(** ** Stub collaborators *)

Module Stubs.
Import JS World.

Definition quote : string := String "034" EmptyString.

Definition json_string (s : string) : string := quote ++ s ++ quote.

(** The completion text of the end-to-end scenario and the value it parses
    to. *)
Definition text_T : string :=
  "{" ++ json_string "main_title" ++ ":" ++ json_string "T" ++ ","
  ++ json_string "main_description" ++ ":" ++ json_string "D" ++ ","
  ++ json_string "read_more_titles" ++ ":["
  ++ json_string "a" ++ "," ++ json_string "b" ++ "," ++ json_string "c" ++ "],"
  ++ json_string "read_more_descriptions" ++ ":["
  ++ json_string "x" ++ "," ++ json_string "y" ++ "," ++ json_string "z" ++ "]}".

Definition content_T : value :=
  VObject [("main_title", VString "T");
           ("main_description", VString "D");
           ("read_more_titles", VArray [VString "a"; VString "b"; VString "c"]);
           ("read_more_descriptions", VArray [VString "x"; VString "y"; VString "z"])].

(** A completion without [main_description]. *)
Definition text_no_description : string :=
  "{" ++ json_string "main_title" ++ ":" ++ json_string "T" ++ "}".

Definition content_no_description : value :=
  VObject [("main_title", VString "T")].

(** A completion with the two main fields only. *)
Definition text_main_only : string :=
  "{" ++ json_string "main_title" ++ ":" ++ json_string "T" ++ ","
  ++ json_string "main_description" ++ ":" ++ json_string "D" ++ "}".

Definition content_main_only : value :=
  VObject [("main_title", VString "T"); ("main_description", VString "D")].

Definition stub_parse (s : string) : option value :=
  if String.eqb s text_T then Some content_T
  else if String.eqb s text_no_description then Some content_no_description
  else if String.eqb s text_main_only then Some content_main_only
  else None.

(** The answer of the completion endpoint carrying [text]. *)
Definition reply (text : string) : value :=
  VObject [("choices",
            VArray [VObject [("message", VObject [("content", VString text)])]])].

Definition entry_of (n : Z) : source_row :=
  {| id := Int n; question := Some "Q"; answer := Some "A";
     category_display_name := Some "Cat" |}.

(** A source table holding the integer identifiers [present], whose query
    errors on the identifiers [failing]; an endpoint that always answers
    with [text]; a destination table that accepts every row. *)
Definition stub_env (present failing : list Z) (text : string) : Env :=
  {| select_eq := fun id =>
       match id with
       | Int n =>
           if existsb (Z.eqb n) failing then
             {| data := None; error := Some "connection reset" |}
           else if existsb (Z.eqb n) present then
             {| data := Some [entry_of n]; error := None |}
           else {| data := Some []; error := None |}
       | _ => {| data := Some []; error := None |}
       end;
     insert := fun _ => None;
     axios_post := fun _ => Fulfilled (reply text);
     JSON_parse := stub_parse |}.

Definition row_T : dest_row :=
  {| dest_category_display_name := Some "Cat";
     title := VString "T";
     description := VString "D";
     read_more_titles := VArray [VString "a"; VString "b"; VString "c"];
     read_more_texts := VArray [VString "x"; VString "y"; VString "z"] |}.

End Stubs.

(** ** Further vocabulary and stubs *)

Module More.
Import JS World Stubs.

(** [p] occurs somewhere in [s]. *)
Fixpoint occurs (p s : string) : bool :=
  match s with
  | String _ s' => startsWith p s || occurs p s'
  | EmptyString => startsWith p EmptyString
  end.

(** The last line an identifier leaves on the console. *)
Definition outcome_line (id : number) (e : event) : Prop :=
  (exists message, e = ConsoleError (ErrorFetching id message))
  \/ e = ConsoleLog (NoDataFound id)
  \/ e = ConsoleLog (NoValidContent id)
  \/ (exists message, e = ConsoleError (ErrorInserting id message))
  \/ e = ConsoleLog (Saved id).

(** A source table holding the integer identifiers [present], an endpoint
    that settles every request as [outcome], a parser that knows the empty
    object besides the texts of [stub_parse], and a destination table that
    accepts every row. *)
Definition answering (present : list Z) (outcome : http_outcome) : Env :=
  {| select_eq := fun id =>
       match id with
       | Int n =>
           if existsb (Z.eqb n) present then
             {| data := Some [entry_of n]; error := None |}
           else {| data := Some []; error := None |}
       | _ => {| data := Some []; error := None |}
       end;
     insert := fun _ => None;
     axios_post := fun _ => outcome;
     JSON_parse := fun s =>
       if String.eqb s "{}" then Some (VObject []) else stub_parse s |}.

(** The answer of the completion endpoint whose content is [content]. *)
Definition reply_of (content : value) : value :=
  VObject [("choices",
            VArray [VObject [("message", VObject [("content", content)])]])].

(** A source table that answers every query with the one row [entry]. *)
Definition holding (entry : source_row) (outcome : http_outcome) : Env :=
  {| select_eq := fun _ => {| data := Some [entry]; error := None |};
     insert := fun _ => None;
     axios_post := fun _ => outcome;
     JSON_parse := fun s =>
       if String.eqb s "{}" then Some (VObject []) else stub_parse s |}.

(** A completion whose title holds a fence marker, the text left of it once
    the markers are removed, and a parser that reads the two as
    [JSON.parse] does; the text [null] is read as [null]. *)
Definition text_marked : string :=
  "{" ++ json_string "main_title" ++ ":" ++ json_string "a```b" ++ "}".

Definition text_unmarked : string :=
  "{" ++ json_string "main_title" ++ ":" ++ json_string "ab" ++ "}".

Definition parse_marked (s : string) : option value :=
  if String.eqb s text_marked then Some (VObject [("main_title", VString "a```b")])
  else if String.eqb s text_unmarked then Some (VObject [("main_title", VString "ab")])
  else if String.eqb s "null" then Some VNull
  else stub_parse s.

(** An endpoint that always answers with [text], read with [parse_marked]. *)
Definition marked_env (text : string) : Env :=
  {| select_eq := fun _ => {| data := Some []; error := None |};
     insert := fun _ => None;
     axios_post := fun _ => Fulfilled (reply text);
     JSON_parse := parse_marked |}.


(** The events [processDataWithAI] can perform. *)
Definition generator_event (e : event) : Prop :=
  match e with
  | Post _
  | ConsoleError (InvalidInputText _)
  | ConsoleError JSONParseError
  | ConsoleError (OpenRouterError _)
  | ConsoleLog (RawJSONString _)
  | ConsoleLog (FullAPIError _) => True
  | _ => False
  end.

(** An entry whose question is [n] times the letter q. *)
Definition long_question (n : nat) : source_row :=
  {| id := Int 1;
     question := Some (string_of_list_ascii (repeat "q"%char n));
     answer := Some "A";
     category_display_name := Some "Cat" |}.

End More.

(** ** Facts about the string builtins *)

Module StringFacts.
Import JS Spec.

Lemma includes_app (sep : ascii) (s t : string) :
  includes sep (s ++ t) = includes sep s || includes sep t.
Proof.
  induction s as [|c s IH]; simpl; [reflexivity|].
  rewrite IH. apply orb_assoc.
Qed.

Lemma split_not_nil (sep : ascii) (s : string) : split sep s <> [].
Proof.
  destruct s as [|c s]; simpl; [discriminate|].
  destruct (Ascii.eqb c sep); [discriminate|].
  destruct (split sep s); discriminate.
Qed.

Lemma split_free (sep : ascii) (s : string) :
  includes sep s = false -> split sep s = [s].
Proof.
  induction s as [|c s IH]; simpl; [reflexivity|].
  intros H. apply orb_false_elim in H as [Hc Hs].
  rewrite Hc, (IH Hs). reflexivity.
Qed.

Lemma split_app_sep (sep : ascii) (s t : string) :
  includes sep s = false ->
  split sep (s ++ String sep t) = s :: split sep t.
Proof.
  induction s as [|c s IH]; simpl; intros H.
  - rewrite Ascii.eqb_refl. reflexivity.
  - apply orb_false_elim in H as [Hc Hs].
    rewrite Hc, (IH Hs). reflexivity.
Qed.

Lemma join_split (sep : ascii) (s : string) :
  join (String sep EmptyString) (split sep s) = s.
Proof.
  induction s as [|c s IH]; simpl; [reflexivity|].
  destruct (Ascii.eqb_spec c sep) as [->|Hne].
  - pose proof (split_not_nil sep s) as Hnn.
    destruct (split sep s) as [|t ts]; [contradiction|].
    simpl in *. rewrite IH. reflexivity.
  - pose proof (split_not_nil sep s) as Hnn.
    destruct (split sep s) as [|t ts]; [contradiction|].
    destruct ts as [|t' ts]; simpl in *; rewrite <- IH; reflexivity.
Qed.

Lemma split_pieces_free (sep : ascii) (s : string) :
  Forall (fun t => includes sep t = false) (split sep s).
Proof.
  induction s as [|c s IH]; simpl.
  - constructor; [reflexivity|constructor].
  - destruct (Ascii.eqb c sep) eqn:Hc.
    + constructor; [reflexivity|exact IH].
    + destruct (split sep s) as [|t ts]; [constructor; [simpl; rewrite Hc; reflexivity|constructor]|].
      inversion IH; subst. constructor; [|assumption].
      simpl. rewrite Hc. assumption.
Qed.

Lemma length_split (sep : ascii) (s : string) :
  List.length (split sep s) = S (count sep s).
Proof.
  induction s as [|c s IH]; simpl; [reflexivity|].
  destruct (Ascii.eqb c sep); simpl.
  - rewrite IH. reflexivity.
  - pose proof (split_not_nil sep s) as Hnn.
    destruct (split sep s) as [|t ts]; [contradiction|].
    simpl in *. exact IH.
Qed.

Lemma includes_count (sep : ascii) (s : string) :
  includes sep s = true <-> (0 < count sep s)%nat.
Proof.
  induction s as [|c s IH]; simpl.
  - split; [discriminate|lia].
  - destruct (Ascii.eqb c sep); simpl; [split; [lia|reflexivity]|exact IH].
Qed.

End StringFacts.

(** ** Facts about [Number] *)

Module NumberFacts.
Import JS Spec.

Lemma MAX_SAFE_pos : 0 < MAX_SAFE.
Proof. reflexivity. Qed.

Lemma of_decimal_safe (negative : bool) (m : N) (e a : Z) :
  of_decimal negative m e = Int a -> Z.abs a <= MAX_SAFE.
Proof.
  pose proof MAX_SAFE_pos as Hpos.
  unfold of_decimal.
  assert (Hsign : forall v, 0 <= v -> v <= MAX_SAFE ->
            Z.abs ((if negative then -1 else 1) * v) <= MAX_SAFE)
    by (intros v; destruct negative; lia).
  destruct (Z.of_N m =? 0); [intros [= <-]; simpl; lia|].
  destruct (0 <=? e) eqn:He.
  - apply Z.leb_le in He.
    destruct (Z.leb_spec (Z.of_N m * 10 ^ e) MAX_SAFE) as [Hv|Hv]; [|discriminate].
    intros [= <-]. apply Hsign; [|exact Hv].
    apply Z.mul_nonneg_nonneg; [lia|]. apply Z.pow_nonneg. lia.
  - apply Z.leb_gt in He.
    destruct (Z.of_N m mod 10 ^ (- e) =? 0).
    + destruct (Z.leb_spec (Z.of_N m / 10 ^ (- e)) MAX_SAFE) as [Hv|Hv]; [|discriminate].
      intros [= <-]. apply Hsign; [|exact Hv].
      apply Z.div_pos; [lia|]. apply Z.pow_pos_nonneg; lia.
    + destruct (Z.of_N m * 2 ^ 1075 <=? 10 ^ (- e)); [|discriminate].
      intros [= <-]. simpl. lia.
Qed.

Lemma unsigned_decimal_safe (negative : bool) (s : string) (a : Z) :
  unsigned_decimal negative s = Int a -> Z.abs a <= MAX_SAFE.
Proof.
  unfold unsigned_decimal.
  destruct (digits 10 0 0 s) as [[ip ni] r1].
  destruct (match r1 with
            | String "." r => digits 10 ip 0 r
            | _ => (ip, O, r1)
            end) as [[m nf] r2].
  destruct (exponent_part r2) as [e|].
  - destruct ni, nf; try discriminate; apply of_decimal_safe.
  - destruct ni, nf; discriminate.
Qed.

Lemma decimal_literal_safe (s : string) (a : Z) :
  decimal_literal s = Int a -> Z.abs a <= MAX_SAFE.
Proof.
  unfold decimal_literal.
  destruct (match s with
            | String "+" r => (false, r)
            | String "-" r => (true, r)
            | _ => (false, s)
            end) as [negative r].
  destruct (String.eqb r "Infinity"); [discriminate|].
  apply unsigned_decimal_safe.
Qed.

Lemma radix_digits_safe (b : N) (r : string) (a : Z) :
  match digits b 0 0 r with
  | (v, S _, EmptyString) =>
      Some (if Z.of_N v <=? MAX_SAFE then Int (Z.of_N v) else Other)
  | _ => Some NaN
  end = Some (Int a) -> Z.abs a <= MAX_SAFE.
Proof.
  destruct (digits b 0 0 r) as [[v n] rest].
  destruct n; [discriminate|].
  destruct rest; [|discriminate].
  destruct (Z.leb_spec (Z.of_N v) MAX_SAFE); [|discriminate].
  intros [= <-]. lia.
Qed.

Lemma radix_literal_safe (s : string) (a : Z) :
  radix_literal s = Some (Int a) -> Z.abs a <= MAX_SAFE.
Proof.
  unfold radix_literal.
  destruct s as [|c s]; [discriminate|].
  destruct (Ascii.eqb_spec c "0") as [->|Hc].
  - destruct s as [|p r]; [discriminate|].
    destruct (Ascii.eqb p "x" || Ascii.eqb p "X"); [apply radix_digits_safe|].
    destruct (Ascii.eqb p "o" || Ascii.eqb p "O"); [apply radix_digits_safe|].
    destruct (Ascii.eqb p "b" || Ascii.eqb p "B"); [apply radix_digits_safe|].
    discriminate.
  - destruct c as [[] [] [] [] [] [] [] []]; try discriminate.
    contradiction Hc; reflexivity.
Qed.

(** An integer that [Number] returns is within [2^53]. *)
Lemma Number_Int_safe (s : string) (a : Z) :
  Number s = Int a -> Z.abs a <= MAX_SAFE.
Proof.
  unfold Number.
  destruct (trim s) as [|c t] eqn:Ht.
  - intros [= <-]. pose proof MAX_SAFE_pos. simpl. lia.
  - destruct (radix_literal (String c t)) as [n|] eqn:Hr.
    + intros ->. exact (radix_literal_safe _ _ Hr).
    + apply decimal_literal_safe.
Qed.

End NumberFacts.

(** *** Decimal numerals *)

Module NumeralFacts.
Import JS Spec.

Lemma digit_cases (d : N) :
  is_digit d ->
  In d [0; 1; 2; 3; 4; 5; 6; 7; 8; 9]%N.
Proof.
  unfold is_digit. intros H. simpl.
  destruct d as [|p]; [auto|].
  do 4 (destruct p as [p|p|]; try lia; auto 12).
Qed.

Ltac each_digit H :=
  apply digit_cases in H; simpl in H;
  repeat (destruct H as [<-|H]; [|]); try contradiction.

Lemma digit_of_numeral (d : N) :
  is_digit d -> digit_of 10 (ascii_of_N (48 + d)) = Some d.
Proof. intros H. each_digit H; reflexivity. Qed.

Lemma digit_not_white_space (d : N) :
  is_digit d -> is_white_space (ascii_of_N (48 + d)) = false.
Proof. intros H. each_digit H; reflexivity. Qed.

Lemma trimStart_numeral (ds : list N) :
  Forall is_digit ds -> trimStart (numeral ds) = numeral ds.
Proof.
  intros H. destruct H as [|d ds Hd _]; cbn [numeral trimStart]; [reflexivity|].
  rewrite (digit_not_white_space d Hd). reflexivity.
Qed.

Lemma trimEnd_numeral (ds : list N) :
  Forall is_digit ds -> trimEnd (numeral ds) = numeral ds.
Proof.
  induction 1 as [|d ds Hd _ IH]; cbn [numeral trimEnd]; [reflexivity|].
  rewrite IH, (digit_not_white_space d Hd).
  destruct (numeral ds); reflexivity.
Qed.

Lemma trim_numeral (ds : list N) :
  Forall is_digit ds -> trim (numeral ds) = numeral ds.
Proof.
  intros H. unfold trim. rewrite (trimStart_numeral ds H). apply trimEnd_numeral, H.
Qed.

Lemma digits_numeral (ds : list N) (acc : N) (cnt : nat) :
  Forall is_digit ds ->
  digits 10 acc cnt (numeral ds)
  = (fold_left (fun acc d => acc * 10 + d)%N ds acc,
     (cnt + List.length ds)%nat, EmptyString).
Proof.
  intros H. revert acc cnt.
  induction H as [|d ds Hd _ IH]; intros acc cnt; cbn [numeral digits fold_left List.length].
  - rewrite Nat.add_0_r. reflexivity.
  - rewrite (digit_of_numeral d Hd), IH, Nat.add_succ_r. reflexivity.
Qed.

Lemma radix_literal_numeral (ds : list N) :
  Forall is_digit ds -> radix_literal (numeral ds) = None.
Proof.
  intros H. destruct H as [|d ds Hd Hds]; [reflexivity|].
  destruct Hds as [|d' ds' Hd' _].
  - each_digit Hd; reflexivity.
  - each_digit Hd; try reflexivity.
    each_digit Hd'; reflexivity.
Qed.

Lemma decimal_literal_numeral (d : N) (ds : list N) :
  Forall is_digit (d :: ds) ->
  decimal_literal (numeral (d :: ds)) = unsigned_decimal false (numeral (d :: ds)).
Proof.
  intros H. inversion H as [|? ? Hd _]; subst.
  each_digit Hd; reflexivity.
Qed.

(** [Number] reads a string of decimal digits as the natural number it
    denotes, as long as that is within [2^53]. *)
Lemma Number_numeral (ds : list N) :
  ds <> [] -> Forall is_digit ds ->
  Z.of_N (base10 ds) <= MAX_SAFE ->
  Number (numeral ds) = Int (Z.of_N (base10 ds)).
Proof.
  intros Hne H Hsafe. unfold Number.
  rewrite (trim_numeral ds H), (radix_literal_numeral ds H).
  destruct ds as [|d ds]; [contradiction|].
  rewrite (decimal_literal_numeral d ds H).
  change (match numeral (d :: ds) with
          | EmptyString => Int 0
          | String _ _ => unsigned_decimal false (numeral (d :: ds))
          end) with (unsigned_decimal false (numeral (d :: ds))).
  unfold unsigned_decimal.
  rewrite (digits_numeral (d :: ds) 0 0 H).
  change (fold_left (fun acc d => acc * 10 + d)%N (d :: ds) 0%N) with (base10 (d :: ds)).
  cbn [List.length Nat.add exponent_part Z.of_nat Z.sub Z.opp].
  unfold of_decimal.
  destruct (Z.eqb_spec (Z.of_N (base10 (d :: ds))) 0) as [->|Hnz]; [reflexivity|].
  cbn [Z.leb Z.compare Z.pow Z.pow_pos].
  rewrite Z.mul_1_r.
  apply Z.leb_le in Hsafe. rewrite Hsafe.
  rewrite Z.mul_1_l. reflexivity.
Qed.

End NumeralFacts.

(** ** The identifier-set parser: properties *)

Module ParserSpec.
Import JS Parser Spec StringFacts NumberFacts NumeralFacts.


Lemma upfrom_nth (n : nat) (lo : Z) (i : nat) :
  (i < n)%nat -> nth_error (upfrom lo n) i = Some (lo + Z.of_nat i).
Proof.
  revert lo i. induction n as [|n IH]; intros lo i Hi; [lia|].
  destruct i as [|i]; simpl.
  - f_equal. lia.
  - rewrite IH by lia. f_equal. lia.
Qed.



Lemma inclusive_nth (lo hi : Z) (i : nat) :
  lo + Z.of_nat i <= hi -> nth_error (inclusive lo hi) i = Some (lo + Z.of_nat i).
Proof. intros H. unfold inclusive. apply upfrom_nth. lia. Qed.


Lemma exact_safe (z : Z) : Z.abs z <= MAX_SAFE -> exact z = Some (Int z).
Proof.
  intros H. unfold exact, safe. apply Z.leb_le in H. rewrite H. reflexivity.
Qed.

Lemma tabulate_add (min : Z) (n : nat) (i : Z) :
  (forall k, i <= k < i + Z.of_nat n -> Z.abs (min + k) <= MAX_SAFE) ->
  tabulate (fun i => add (Int min) (Int i)) i n
  = Some (map Int (upfrom (min + i) n)).
Proof.
  revert i. induction n as [|n IH]; intros i H; [reflexivity|].
  cbn [tabulate add upfrom map].
  rewrite exact_safe by (apply H; lia).
  rewrite IH by (intros k Hk; apply H; lia).
  rewrite <- Z.add_assoc. reflexivity.
Qed.

Lemma Array_from_not_InvalidFormat (len : option number) (f : Z -> option number) :
  Array_from len f <> InvalidFormat.
Proof.
  unfold Array_from.
  destruct len as [len|]; [|discriminate].
  destruct (ToLength len) as [n|]; [|discriminate].
  destruct (MAX_ARRAY_LENGTH <? n); [discriminate|].
  destruct (tabulate f 0 (Z.to_nat n)); discriminate.
Qed.

(** The format error is raised for the specs without a separator, and for
    no other. *)
Lemma idList_InvalidFormat_iff (args : string) :
  idList args = InvalidFormat
  <-> includes "-" args = false /\ includes "," args = false.
Proof.
  unfold idList. split.
  - destruct (includes "-" args).
    + intros H. apply Array_from_not_InvalidFormat in H. contradiction.
    + destruct (includes "," args); [discriminate|auto].
  - intros [-> ->]. reflexivity.
Qed.

(** What line 30 computes from two integer pieces [min <= max]. *)
Lemma Array_from_range (min max : Z) :
  Z.abs min <= MAX_SAFE -> Z.abs max <= MAX_SAFE -> min <= max ->
  Array_from (bind_num (sub (Int max) (Int min)) (fun d => add d (Int 1)))
             (fun i => add (Int min) (Int i))
  = if max - min + 1 <=? MAX_ARRAY_LENGTH then Ids (map Int (inclusive min max))
    else if max - min + 1 <=? MAX_SAFE then InvalidArrayLength
    else Untracked.
Proof.
  intros Smin Smax Hle.
  assert (HM : MAX_SAFE = 9007199254740992) by reflexivity.
  assert (HA : MAX_ARRAY_LENGTH = 4294967295) by reflexivity.
  destruct (Z.leb_spec (max - min + 1) MAX_SAFE) as [Hsafe|Hbig].
  - cbn [sub bind_num]. rewrite exact_safe by lia. cbn [bind_num add].
    rewrite exact_safe by lia.
    unfold Array_from, ToLength.
    destruct (Z.leb_spec (max - min + 1) MAX_ARRAY_LENGTH) as [Hlen|Hlong].
    + replace (Z.min (Z.max (max - min + 1) 0) (MAX_SAFE - 1)) with (max - min + 1) by lia.
      destruct (Z.ltb_spec MAX_ARRAY_LENGTH (max - min + 1)) as [Hbad|_]; [lia|].
      change (fun i : Z => exact (min + i)) with (fun i : Z => add (Int min) (Int i)).
      rewrite tabulate_add by (intros k Hk; lia).
      rewrite Z.add_0_r. reflexivity.
    + destruct (Z.ltb_spec MAX_ARRAY_LENGTH
                  (Z.min (Z.max (max - min + 1) 0) (MAX_SAFE - 1))) as [_|Hbad];
        [reflexivity|lia].
  - destruct (Z.leb_spec (max - min + 1) MAX_ARRAY_LENGTH) as [Hlen|_]; [lia|].
    cbn [sub bind_num]. unfold exact at 1, safe.
    destruct (Z.leb_spec (Z.abs (max - min)) MAX_SAFE) as [Hd|Hd]; cbn [bind_num]; [|reflexivity].
    cbn [add]. unfold exact, safe.
    destruct (Z.leb_spec (Z.abs (max - min + 1)) MAX_SAFE) as [Hd'|_]; [lia|reflexivity].
Qed.

(** C6, as the code has it: for a range-form spec whose two pieces [Number]
    reads as integers [min <= max] (which it does only within [2^53], where
    every integer is a double and the arithmetic of line 30 is exact), the
    identifier list is the inclusive ascending sequence
    [min, min+1, ..., max] when it has at most [2^32 - 1] identifiers; with
    more than that, and at most [2^53], [Array.from] raises a [RangeError]
    and there is no list. *)
Theorem range_form_inclusive (tmin tmax : string) (min max : Z) :
  includes "-" tmin = false -> includes "-" tmax = false ->
  Number tmin = Int min -> Number tmax = Int max ->
  min <= max ->
  Z.abs min <= MAX_SAFE /\ Z.abs max <= MAX_SAFE
  /\ (max - min + 1 <= MAX_ARRAY_LENGTH ->
      idList (tmin ++ "-" ++ tmax) = Ids (map Int (inclusive min max)))
  /\ (MAX_ARRAY_LENGTH < max - min + 1 <= MAX_SAFE ->
      idList (tmin ++ "-" ++ tmax) = InvalidArrayLength).
Proof.
  intros Hfmin Hfmax Hmin Hmax Hle.
  pose proof (Number_Int_safe _ _ Hmin) as Smin.
  pose proof (Number_Int_safe _ _ Hmax) as Smax.
  assert (E : idList (tmin ++ "-" ++ tmax)
              = if max - min + 1 <=? MAX_ARRAY_LENGTH
                then Ids (map Int (inclusive min max))
                else if max - min + 1 <=? MAX_SAFE then InvalidArrayLength
                else Untracked).
  { unfold idList.
    rewrite includes_app. cbn [includes append]. rewrite Ascii.eqb_refl, orb_true_r.
    change ("-" ++ tmax) with (String "-" tmax).
    rewrite (split_app_sep "-" tmin tmax Hfmin), (split_free "-" tmax Hfmax).
    cbn [map nth]. rewrite Hmin, Hmax.
    exact (Array_from_range min max Smin Smax Hle). }
  split; [exact Smin|]. split; [exact Smax|]. split.
  - intros Hlen. rewrite E.
    destruct (Z.leb_spec (max - min + 1) MAX_ARRAY_LENGTH); [reflexivity|lia].
  - intros [Hlong Hsafe]. rewrite E.
    destruct (Z.leb_spec (max - min + 1) MAX_ARRAY_LENGTH); [lia|].
    destruct (Z.leb_spec (max - min + 1) MAX_SAFE); [reflexivity|lia].
Qed.

Lemma range_form_inclusive_witness :
  idList ("10" ++ "-" ++ "12") = Ids (map Int (inclusive 10 12))
  /\ idList ("0" ++ "-" ++ "4294967295") = InvalidArrayLength.
Proof.
  split.
  - apply (range_form_inclusive "10" "12" 10 12); try reflexivity; discriminate.
  - apply (range_form_inclusive "0" "4294967295" 0 4294967295); try reflexivity.
    + discriminate.
    + split; [reflexivity|discriminate].
Defined.

(** C6, where it fails: the range [0-4294967295] has two numeric pieces with
    [min <= max], yet [Array.from] raises a [RangeError] for the length
    [2^32] and no sequence is produced. *)
Lemma range_form_too_long :
  Number "0" = Int 0 /\ Number "4294967295" = Int 4294967295 /\
  0 <= 4294967295 /\
  idList "0-4294967295" = InvalidArrayLength /\
  idList "0-4294967295" <> Ids (map Int (inclusive 0 4294967295)).
Proof.
  assert (H : idList "0-4294967295" = InvalidArrayLength) by (vm_compute; reflexivity).
  split; [vm_compute; reflexivity|].
  split; [vm_compute; reflexivity|].
  split; [discriminate|].
  split; [exact H|].
  rewrite H. discriminate.
Qed.

Lemma split_join (sep : ascii) (pieces : list string) :
  pieces <> [] -> Forall (fun t => includes sep t = false) pieces ->
  split sep (join (String sep EmptyString) pieces) = pieces.
Proof.
  intros Hne H. induction H as [|t ts Ht Hts IH]; [contradiction|].
  destruct ts as [|t' ts]; [exact (split_free sep t Ht)|].
  change (join (String sep EmptyString) (t :: t' :: ts))
    with (t ++ String sep (join (String sep EmptyString) (t' :: ts))).
  rewrite (split_app_sep sep t _ Ht), IH by discriminate. reflexivity.
Qed.

Lemma includes_join (c sep : ascii) (pieces : list string) :
  Ascii.eqb sep c = false -> Forall (fun t => includes c t = false) pieces ->
  includes c (join (String sep EmptyString) pieces) = false.
Proof.
  intros Hc H. induction H as [|t ts Ht Hts IH]; [reflexivity|].
  destruct ts as [|t' ts]; [exact Ht|].
  change (join (String sep EmptyString) (t :: t' :: ts))
    with (t ++ String sep (join (String sep EmptyString) (t' :: ts))).
  rewrite includes_app, Ht. cbn [includes orb]. rewrite Hc. exact IH.
Qed.

Lemma numeral_free (c : ascii) (ds : list N) :
  c = ","%char \/ c = "-"%char -> Forall is_digit ds ->
  includes c (numeral ds) = false.
Proof.
  intros Hc H. induction H as [|d ds Hd _ IH]; [reflexivity|].
  cbn [numeral includes]. rewrite IH, orb_false_r.
  destruct Hc as [-> | ->]; each_digit Hd; reflexivity.
Qed.

(** X7: comma-separated decimal numerals are read back as the numbers they
    denote, in order and with their repetitions. *)
Lemma idList_numerals (dss : list (list N)) :
  (2 <= List.length dss)%nat ->
  Forall (fun ds => ds <> [] /\ Forall is_digit ds /\ Z.of_N (base10 ds) <= MAX_SAFE) dss ->
  idList (join "," (map numeral dss))
  = Ids (map (fun ds => Int (Z.of_N (base10 ds))) dss).
Proof.
  intros Hlen H.
  assert (Hfree : forall c, c = ","%char \/ c = "-"%char ->
            Forall (fun t => includes c t = false) (map numeral dss)).
  { intros c Hc. apply Forall_map. revert H. apply Forall_impl.
    intros ds (_ & Hd & _). exact (numeral_free c ds Hc Hd). }
  unfold idList.
  rewrite (includes_join "-" "," _ eq_refl (Hfree _ (or_intror eq_refl))).
  assert (Hcomma : includes "," (join "," (map numeral dss)) = true).
  { destruct dss as [|a [|b l]]; cbn [List.length] in Hlen; try lia.
    change (join "," (map numeral (a :: b :: l)))
      with (numeral a ++ String "," (join "," (map numeral (b :: l)))).
    rewrite includes_app. cbn [includes]. rewrite Ascii.eqb_refl, orb_true_r.
    reflexivity. }
  rewrite Hcomma, split_join;
    [|destruct dss; [cbn [List.length] in Hlen; lia|discriminate]
     |exact (Hfree _ (or_introl eq_refl))].
  f_equal. rewrite map_map. apply map_ext_Forall. revert H. apply Forall_impl.
  intros ds (Hne & Hd & Hs). exact (Number_numeral ds Hne Hd Hs).
Qed.

(** A token that does not start as a numeric literal does is not a number. *)
Lemma Number_not_literal (t : string) (c : ascii) (r : string) :
  trim t = String c r -> starts_literal c = false -> Number t = NaN.
Proof.
  intros Ht Hc. unfold Number. rewrite Ht.
  destruct c as [[] [] [] [] [] [] [] []]; try discriminate Hc; reflexivity.
Qed.

(** A decimal numeral, with or without white space around it, is read as
    the integer it denotes. *)
Lemma Number_padded_numeral (t : string) (ds : list N) :
  trim t = numeral ds -> ds <> [] -> Forall is_digit ds ->
  Z.of_N (base10 ds) <= MAX_SAFE -> Number t = Int (Z.of_N (base10 ds)).
Proof.
  intros Ht Hne Hd Hs.
  pose proof (Number_numeral ds Hne Hd Hs) as H.
  unfold Number in H |- *. rewrite trim_numeral in H by exact Hd.
  rewrite Ht. exact H.
Qed.

(** C7, as the code has it: for every list-form spec, the identifier list is
    [Number] of each comma-separated token, in the order of the input and
    with as many entries as tokens (nothing is merged, dropped or
    rejected). [Number] is not an integer parser: a token that is a decimal
    numeral, with or without white space around it, is read as the integer
    it denotes; an empty or blank token is read as 0; a token that does not
    start as a numeric literal does is read as [NaN]. *)
Theorem list_form_in_order (args : string) :
  includes "," args = true -> includes "-" args = false ->
  let tokens := split "," args in
  idList args = Ids (map Number tokens)
  /\ join "," tokens = args
  /\ Forall (fun t => includes "," t = false) tokens
  /\ List.length tokens = S (count "," args)
  /\ (forall t, In t tokens ->
        (forall ds, trim t = numeral ds ->
           ds <> [] -> Forall is_digit ds -> Z.of_N (base10 ds) <= MAX_SAFE ->
           Number t = Int (Z.of_N (base10 ds)))
        /\ (trim t = "" -> Number t = Int 0)
        /\ (forall c r, trim t = String c r -> starts_literal c = false ->
              Number t = NaN)).
Proof.
  intros Hcomma Hdash tokens. subst tokens.
  split; [unfold idList; rewrite Hdash, Hcomma; reflexivity|].
  split; [apply join_split|].
  split; [apply split_pieces_free|].
  split; [apply length_split|].
  intros t _. split; [|split].
  - intros ds. apply Number_padded_numeral.
  - intros Ht. unfold Number. rewrite Ht. reflexivity.
  - intros c r. apply Number_not_literal.
Qed.

Lemma list_form_in_order_witness :
  idList "5,7,9" = Ids [Int 5; Int 7; Int 9]
  /\ idList "5,5" = Ids [Int 5; Int 5].
Proof.
  split.
  - exact (proj1 (list_form_in_order "5,7,9" eq_refl eq_refl)).
  - exact (proj1 (list_form_in_order "5,5" eq_refl eq_refl)).
Defined.

(** C7, where it fails: in the list-form spec [abc,5] the first token is not
    parsed as an integer, and the spec is not rejected either: the
    identifier list holds [NaN] in its place. *)
Lemma list_token_is_not_an_integer :
  includes "," "abc,5" = true /\ includes "-" "abc,5" = false
  /\ split "," "abc,5" = ["abc"; "5"]
  /\ Number "abc" = NaN
  /\ idList "abc,5" = Ids [NaN; Int 5].
Proof. repeat split; reflexivity. Qed.

End ParserSpec.

(** ** Facts about [trim] and the removal of fence markers *)

Module FenceFacts.
Import JS Spec More.

Lemma append_assoc (a b c : string) : (a ++ b) ++ c = a ++ b ++ c.
Proof. induction a as [|x a IH]; simpl; [|rewrite IH]; reflexivity. Qed.

Lemma append_nil_r (a : string) : a ++ "" = a.
Proof. induction a as [|x a IH]; simpl; [|rewrite IH]; reflexivity. Qed.

Lemma length_append (a b : string) :
  String.length (a ++ b) = (String.length a + String.length b)%nat.
Proof. induction a as [|x a IH]; simpl; [|rewrite IH]; reflexivity. Qed.

(** *** [trim] *)

Lemma trimStart_white (w s : string) :
  all_white w = true -> trimStart (w ++ s) = trimStart s.
Proof.
  induction w as [|c w IH]; simpl; [reflexivity|].
  intros H. apply andb_prop in H as [Hc Hw]. rewrite Hc. exact (IH Hw).
Qed.

Lemma trimEnd_white (w : string) : all_white w = true -> trimEnd w = "".
Proof.
  induction w as [|c w IH]; simpl; [reflexivity|].
  intros H. apply andb_prop in H as [Hc Hw]. rewrite (IH Hw), Hc. reflexivity.
Qed.

Lemma trimEnd_append_white (s w : string) :
  all_white w = true -> trimEnd (s ++ w) = trimEnd s.
Proof.
  intros Hw. induction s as [|c s IH]; simpl.
  - apply trimEnd_white, Hw.
  - rewrite IH. reflexivity.
Qed.

Lemma trimEnd_append (s t : string) :
  trimEnd t <> "" -> trimEnd (s ++ t) = s ++ trimEnd t.
Proof.
  intros Ht. induction s as [|c s IH]; simpl; [reflexivity|].
  rewrite IH. destruct (s ++ trimEnd t) eqn:E; [|reflexivity].
  destruct s; simpl in E; [contradiction|discriminate].
Qed.

Lemma trim_white_r (s w : string) :
  all_white w = true -> trim (s ++ w) = trim s.
Proof.
  intros Hw. unfold trim. induction s as [|c s IH]; simpl.
  - rewrite <- (append_nil_r w), (trimStart_white w "" Hw). reflexivity.
  - destruct (is_white_space c); [exact IH|].
    exact (trimEnd_append_white (String c s) w Hw).
Qed.

Lemma trim_white_l (w s : string) :
  all_white w = true -> trim (w ++ s) = trim s.
Proof. intros Hw. unfold trim. rewrite (trimStart_white w s Hw). reflexivity. Qed.

Lemma trimStart_split (s : string) :
  exists w, all_white w = true /\ s = w ++ trimStart s.
Proof.
  induction s as [|c s (w & Hw & E)]; simpl.
  - exists "". split; reflexivity.
  - destruct (is_white_space c) eqn:Hc.
    + exists (String c w). simpl. rewrite Hc, Hw, <- E. split; reflexivity.
    + exists "". split; reflexivity.
Qed.

Lemma trimEnd_split (s : string) :
  exists w, all_white w = true /\ s = trimEnd s ++ w.
Proof.
  induction s as [|c s (w & Hw & E)]; simpl.
  - exists "". split; reflexivity.
  - destruct (trimEnd s) as [|d t] eqn:Ht.
    + destruct (is_white_space c) eqn:Hc.
      * exists (String c w). simpl. rewrite Hc, Hw. split; [reflexivity|].
        f_equal. exact E.
      * exists w. split; [exact Hw|]. simpl. f_equal. exact E.
    + exists w. split; [exact Hw|]. simpl. f_equal. exact E.
Qed.

(** A string is its [trim] between two runs of white space. *)
Lemma trim_split (s : string) :
  exists w1 w2,
    all_white w1 = true /\ all_white w2 = true /\ s = w1 ++ trim s ++ w2.
Proof.
  destruct (trimStart_split s) as (w1 & H1 & E1).
  destruct (trimEnd_split (trimStart s)) as (w2 & H2 & E2).
  exists w1, w2. unfold trim. rewrite <- E2, <- E1. auto.
Qed.

(** *** [startsWith] and [drop] *)

Lemma startsWith_append (p q s : string) :
  startsWith (p ++ q) s = startsWith p s && startsWith q (drop (String.length p) s).
Proof.
  revert s. induction p as [|a p IH]; intros s; simpl.
  - destruct s; reflexivity.
  - destruct s as [|b s]; [reflexivity|].
    rewrite IH, andb_assoc. reflexivity.
Qed.

Lemma startsWith_grow (p x z : string) :
  startsWith p x = true -> startsWith p (x ++ z) = true.
Proof.
  revert x. induction p as [|a p IH]; intros x; simpl; [reflexivity|].
  destruct x as [|b x]; [discriminate|]. simpl.
  intros H. apply andb_prop in H as [Hab Hp]. rewrite Hab, (IH x Hp). reflexivity.
Qed.

(** A character that does not occur in [p] stops every attempt to match
    [p] across it. *)
Lemma startsWith_stop (p x y : string) (w : ascii) :
  includes w p = false ->
  startsWith p (x ++ String w y) = startsWith p x.
Proof.
  revert x. induction p as [|a p IH]; intros x Hw; simpl; [reflexivity|].
  simpl in Hw. apply orb_false_elim in Hw as [Ha Hp].
  destruct x as [|b x]; simpl.
  - rewrite Ha. reflexivity.
  - rewrite (IH x Hp). reflexivity.
Qed.

Lemma drop_append (p x z : string) :
  startsWith p x = true ->
  drop (String.length p) (x ++ z) = drop (String.length p) x ++ z.
Proof.
  revert x. induction p as [|a p IH]; intros x; simpl.
  - destruct x; reflexivity.
  - destruct x as [|b x]; [discriminate|]. simpl.
    intros H. apply andb_prop in H as [_ Hp]. exact (IH x Hp).
Qed.

Lemma drop3_append (x z : string) :
  startsWith "```" x = true -> drop 3 (x ++ z) = drop 3 x ++ z.
Proof. exact (drop_append "```" x z). Qed.

Lemma drop7_append (x z : string) :
  startsWith "```json" x = true -> drop 7 (x ++ z) = drop 7 x ++ z.
Proof. exact (drop_append "```json" x z). Qed.

Lemma length_drop (k : nat) (s : string) :
  (String.length (drop k s) <= String.length s)%nat.
Proof.
  revert s. induction k as [|k IH]; intros s; [destruct s; simpl; lia|].
  destruct s as [|c s]; simpl; [lia|]. specialize (IH s). lia.
Qed.

Lemma length_drop_lt (k : nat) (p s : string) :
  startsWith (String "`" p) s = true ->
  (String.length (drop (S k) s) < String.length s)%nat.
Proof.
  destruct s as [|c s]; [discriminate|]. intros _.
  change (drop (S k) (String c s)) with (drop k s).
  pose proof (length_drop k s). simpl. lia.
Qed.

(** *** [replace_fences] *)

Lemma remove_fences_skip (k : nat) (s : string) :
  remove_fences k s = remove_fences 0 (drop k s).
Proof.
  revert k. induction s as [|c s IH]; intros k.
  - destruct k; reflexivity.
  - destruct k as [|k]; [reflexivity|].
    cbn [remove_fences drop]. apply IH.
Qed.

(** One step of the scan. *)
Lemma replace_fences_step (s : string) :
  replace_fences s =
  if startsWith "```" s then
    if startsWith "json" (drop 3 s) then replace_fences (drop 7 s)
    else replace_fences (drop 3 s)
  else
    match s with
    | String c s' => String c (replace_fences s')
    | EmptyString => EmptyString
    end.
Proof.
  destruct s as [|c s]; [reflexivity|].
  unfold replace_fences. cbn [remove_fences].
  change "```json" with ("```" ++ "json").
  rewrite startsWith_append.
  change (String.length "```") with 3%nat.
  destruct (startsWith "```" (String c s)); cbn [andb].
  - destruct (startsWith "json" (drop 3 (String c s)));
      rewrite remove_fences_skip; reflexivity.
  - reflexivity.
Qed.

Lemma white_not_fence (c : ascii) :
  is_white_space c = true -> includes c "```json" = false.
Proof.
  unfold is_white_space. cbn [existsb]. intros H.
  repeat (apply orb_prop in H as [H|H];
          [apply N.eqb_eq in H;
           rewrite <- (ascii_N_embedding c); unfold code in H; rewrite H; reflexivity|]).
  discriminate.
Qed.

(** A character outside the fence markers is kept, and the scan on either
    side of it is as if it were alone. *)
Lemma replace_fences_other (w : ascii) (y : string) :
  includes w "```json" = false ->
  forall x, replace_fences (x ++ String w y)
            = replace_fences x ++ String w (replace_fences y).
Proof.
  intros Hw.
  assert (Hw3 : includes w "```" = false).
  { cbn [includes] in Hw |- *. destruct (Ascii.eqb "`" w); [discriminate|reflexivity]. }
  assert (Hw4 : includes w "json" = false).
  { cbn [includes] in Hw |- *. destruct (Ascii.eqb "`" w); [discriminate|exact Hw]. }
  intros x. remember (String.length x) as n eqn:Hn.
  revert x Hn. induction n as [n IH] using lt_wf_ind. intros x Hn.
  rewrite (replace_fences_step (x ++ String w y)), (replace_fences_step x).
  rewrite (startsWith_stop "```" x y w Hw3).
  destruct (startsWith "```" x) eqn:E3.
  - rewrite (drop3_append x (String w y) E3).
    rewrite (startsWith_stop "json" (drop 3 x) y w Hw4).
    assert (H3 : (String.length (drop 3 x) < n)%nat)
      by (subst n; exact (length_drop_lt 2 _ x E3)).
    destruct (startsWith "json" (drop 3 x)) eqn:E4.
    + assert (E7 : startsWith "```json" x = true).
      { change "```json" with ("```" ++ "json"). rewrite startsWith_append, E3. exact E4. }
      rewrite (drop7_append x (String w y) E7).
      apply (IH (String.length (drop 7 x))); [|reflexivity].
      subst n. exact (length_drop_lt 6 _ x E3).
    + apply (IH _ H3). reflexivity.
  - destruct x as [|c x]; [reflexivity|].
    cbn [append]. f_equal.
    apply (IH (String.length x)); [subst n; simpl; lia|reflexivity].
Qed.

Lemma replace_fences_white (w s : string) :
  all_white w = true -> replace_fences (w ++ s) = w ++ replace_fences s.
Proof.
  induction w as [|c w IH]; [reflexivity|].
  cbn [all_white]. intros H. apply andb_prop in H as [Hc Hw].
  change (String c w ++ s) with ("" ++ String c (w ++ s)).
  rewrite (replace_fences_other c (w ++ s) (white_not_fence c Hc) "").
  rewrite (IH Hw). reflexivity.
Qed.

(** The closing marker disappears whatever precedes it. *)
Lemma replace_fences_closing (x : string) :
  replace_fences (x ++ "```") = replace_fences x.
Proof.
  remember (String.length x) as n eqn:Hn.
  revert x Hn. induction n as [n IH] using lt_wf_ind. intros x Hn.
  destruct (startsWith "```" x) eqn:E3.
  - rewrite (replace_fences_step (x ++ "```")), (replace_fences_step x).
    rewrite (startsWith_grow "```" x "```" E3), E3.
    rewrite (drop3_append x "```" E3).
    rewrite (startsWith_stop "json" (drop 3 x) "``" "`" eq_refl).
    assert (H3 : (String.length (drop 3 x) < n)%nat)
      by (subst n; exact (length_drop_lt 2 _ x E3)).
    destruct (startsWith "json" (drop 3 x)) eqn:E4.
    + assert (E7 : startsWith "```json" x = true).
      { change "```json" with ("```" ++ "json"). rewrite startsWith_append, E3. exact E4. }
      rewrite (drop7_append x "```" E7).
      apply (IH (String.length (drop 7 x))); [|reflexivity].
      subst n. exact (length_drop_lt 6 _ x E3).
    + apply (IH _ H3). reflexivity.
  - assert (Hstep : forall c r,
              Ascii.eqb "`" c = false \/
              (exists d r', r = String d r' /\ Ascii.eqb "`" d = false) \/
              (exists e r', r = String "`" (String e r') /\ Ascii.eqb "`" e = false) ->
              (String.length r < n)%nat ->
              replace_fences (String c r ++ "```") = replace_fences (String c r)).
    { intros c r Hc Hr.
      rewrite (replace_fences_step (String c r ++ "```")), (replace_fences_step (String c r)).
      assert (Eno : startsWith "```" (String c r ++ "```") = false
                    /\ startsWith "```" (String c r) = false).
      { destruct Hc as [Hc|[(d & r' & -> & Hd)|(e & r' & -> & He)]];
          cbn [startsWith append].
        - rewrite Hc. split; reflexivity.
        - rewrite Hd. cbn [andb]. rewrite andb_false_r. split; reflexivity.
        - rewrite He. cbn [andb]. rewrite !andb_false_r. split; reflexivity. }
      destruct Eno as [-> ->]. cbn [append]. f_equal.
      apply (IH _ Hr). reflexivity. }
    destruct x as [|c1 x1]; [reflexivity|].
    assert (L1 : (String.length x1 < n)%nat) by (subst n; simpl; lia).
    destruct (Ascii.eqb_spec "`" c1) as [<-|N1].
    2:{ apply Hstep; [left; apply Ascii.eqb_neq, N1|exact L1]. }
    destruct x1 as [|c2 x2]; [reflexivity|].
    destruct (Ascii.eqb_spec "`" c2) as [<-|N2].
    2:{ apply Hstep; [right; left; exists c2, x2; split; [reflexivity|apply Ascii.eqb_neq, N2]
                     |exact L1]. }
    destruct x2 as [|c3 x3]; [reflexivity|].
    destruct (Ascii.eqb_spec "`" c3) as [<-|N3].
    + discriminate E3.
    + apply Hstep; [|exact L1].
      right; right. exists c3, x3. split; [reflexivity|apply Ascii.eqb_neq, N3].
Qed.

(** *** Strings without a fence marker *)

Lemma startsWith_tick (c : ascii) (s : string) :
  startsWith "```" (String c s) = Ascii.eqb "`" c && startsWith "``" s.
Proof. reflexivity. Qed.

Lemma startsWith_two_ticks (c : ascii) (s : string) :
  startsWith "``" (String c s) = Ascii.eqb "`" c && startsWith "`" s.
Proof. reflexivity. Qed.

Lemma replace_fences_keeps (c : ascii) (s : string) :
  startsWith "```" (String c s) = false ->
  replace_fences (String c s) = String c (replace_fences s).
Proof. intros H. rewrite replace_fences_step, H. reflexivity. Qed.

Lemma replace_fences_no_tick_first (s : string) :
  startsWith "`" s = false -> startsWith "`" (replace_fences s) = false.
Proof.
  destruct s as [|c s]; [reflexivity|].
  intros H. cbn [startsWith] in H. rewrite andb_true_r in H.
  rewrite replace_fences_keeps by (rewrite startsWith_tick, H; reflexivity).
  cbn [startsWith]. rewrite H. reflexivity.
Qed.

Lemma replace_fences_no_two_ticks_first (s : string) :
  startsWith "``" s = false -> startsWith "``" (replace_fences s) = false.
Proof.
  destruct s as [|c s]; [reflexivity|].
  intros H. rewrite startsWith_two_ticks in H.
  assert (E3 : startsWith "```" (String c s) = false).
  { rewrite startsWith_tick. destruct (Ascii.eqb "`" c); [|reflexivity].
    cbn [andb] in H |- *. destruct s as [|d s]; [reflexivity|].
    rewrite startsWith_two_ticks. cbn [startsWith] in H.
    rewrite andb_true_r in H. rewrite H. reflexivity. }
  rewrite (replace_fences_keeps c s E3), startsWith_two_ticks.
  destruct (Ascii.eqb "`" c); [|reflexivity].
  cbn [andb] in H |- *. exact (replace_fences_no_tick_first s H).
Qed.

Lemma replace_fences_clean (s : string) :
  occurs "```" (replace_fences s) = false.
Proof.
  remember (String.length s) as n eqn:Hn.
  revert s Hn. induction n as [n IH] using lt_wf_ind. intros s Hn.
  destruct (startsWith "```" s) eqn:E3.
  - rewrite replace_fences_step, E3.
    destruct (startsWith "json" (drop 3 s)).
    + apply (IH (String.length (drop 7 s))); [|reflexivity].
      subst n. exact (length_drop_lt 6 _ s E3).
    + apply (IH (String.length (drop 3 s))); [|reflexivity].
      subst n. exact (length_drop_lt 2 _ s E3).
  - destruct s as [|c s]; [reflexivity|].
    rewrite (replace_fences_keeps c s E3). cbn [occurs].
    rewrite (IH (String.length s)) by (subst n; simpl; lia || reflexivity).
    rewrite orb_false_r, startsWith_tick.
    rewrite (startsWith_tick c s) in E3.
    destruct (Ascii.eqb "`" c); [|reflexivity].
    cbn [andb] in E3 |- *. exact (replace_fences_no_two_ticks_first s E3).
Qed.

Lemma replace_fences_fixed (s : string) :
  occurs "```" s = false -> replace_fences s = s.
Proof.
  induction s as [|c s IH]; [reflexivity|].
  cbn [occurs]. intros H. apply orb_false_elim in H as [H3 Hs].
  rewrite (replace_fences_keeps c s H3), (IH Hs). reflexivity.
Qed.

Lemma occurs_suffix (c : ascii) (p a b : string) :
  occurs (String c p) (a ++ b) = false -> occurs (String c p) b = false.
Proof.
  induction a as [|x a IH]; [intros H; exact H|].
  cbn [append occurs]. intros H. apply orb_false_elim in H as [_ H]. exact (IH H).
Qed.

Lemma occurs_prefix (c : ascii) (p a b : string) :
  occurs (String c p) (a ++ b) = false -> occurs (String c p) a = false.
Proof.
  induction a as [|x a IH]; [reflexivity|].
  cbn [append occurs]. intros H. apply orb_false_elim in H as [Hs H].
  rewrite (IH H), orb_false_r.
  destruct (startsWith (String c p) (String x a)) eqn:E; [|reflexivity].
  change (String x (a ++ b)) with (String x a ++ b) in Hs.
  rewrite (startsWith_grow _ (String x a) b E) in Hs. discriminate.
Qed.

Lemma occurs_trim (c : ascii) (p s : string) :
  occurs (String c p) s = false -> occurs (String c p) (trim s) = false.
Proof.
  destruct (trim_split s) as (w1 & w2 & _ & _ & E).
  intros H. rewrite E in H.
  apply occurs_suffix in H. apply occurs_prefix in H. exact H.
Qed.

End FenceFacts.

(** ** The content generator: properties *)

Module GeneratorSpec.
Import JS World Generator Spec Stubs More FenceFacts.
Open Scope js_scope.

Lemma replace_fences_opening (r : string) :
  replace_fences ("```json" ++ r) = replace_fences r.
Proof. reflexivity. Qed.

Lemma replace_fences_white_r (x w : string) :
  all_white w = true -> replace_fences (x ++ w) = replace_fences x ++ w.
Proof.
  destruct w as [|c w]; [rewrite !append_nil_r; reflexivity|].
  cbn [all_white]. intros H. apply andb_prop in H as [Hc Hw].
  rewrite (replace_fences_other c w (white_not_fence c Hc) x).
  rewrite <- (append_nil_r w) at 1.
  rewrite (replace_fences_white w "" Hw), append_nil_r. reflexivity.
Qed.

Lemma cleaned_ignores_trim (s : string) :
  cleaned s = trim (replace_fences s).
Proof.
  unfold cleaned.
  destruct (trim_split s) as (w1 & w2 & H1 & H2 & E).
  rewrite E at 2.
  rewrite (replace_fences_white w1 _ H1), (replace_fences_white_r _ w2 H2).
  rewrite (trim_white_l w1 _ H1), (trim_white_r _ w2 H2). reflexivity.
Qed.

Lemma trim_fenced (w1 w2 body : string) :
  trim (fenced w1 w2 body) = fenced w1 w2 body.
Proof.
  unfold trim, fenced. cbn [append trimStart].
  change (if is_white_space "`" then _ else ?s) with s.
  change (String "`" (String "`" (String "`" (String "j" (String "s"
            (String "o" (String "n" (w1 ++ body ++ w2 ++ "```"))))))))
    with ("```json" ++ w1 ++ body ++ w2 ++ "```").
  rewrite <- !append_assoc.
  rewrite (trimEnd_append _ "```"); [reflexivity|discriminate].
Qed.

Lemma cleaned_fenced (w1 w2 body : string) :
  all_white w1 = true -> all_white w2 = true ->
  cleaned (fenced w1 w2 body) = cleaned body.
Proof.
  intros H1 H2. rewrite (cleaned_ignores_trim body).
  unfold cleaned. rewrite trim_fenced. unfold fenced.
  rewrite replace_fences_opening, (replace_fences_white w1 _ H1).
  rewrite <- append_assoc.
  rewrite replace_fences_closing.
  rewrite (replace_fences_white_r body w2 H2).
  rewrite (trim_white_l w1 _ H1), (trim_white_r _ w2 H2). reflexivity.
Qed.

(** C9, as the code has it: for a completion text that holds no fence
    marker, the strip-and-parse step run on the text wrapped in
    [```json ... ```] fences, with any white space or none inside the
    markers, hands [JSON.parse] the text with its outer white space removed:
    the step returns the value [JSON.parse] gives for it, or [null] after
    the two parse-error lines when it does not parse. *)
Theorem fenced_parses_like_unfenced (env : Env) (w1 w2 body : string) :
  all_white w1 = true -> all_white w2 = true ->
  occurs "```" body = false ->
  strip_and_parse env (VString (fenced w1 w2 body)) = parse_or_null env (trim body)
  /\ (forall v, JSON_parse env (trim body) = Some v ->
        strip_and_parse env (VString (fenced w1 w2 body)) = ([], Normal v))
  /\ (JSON_parse env (trim body) = None ->
      strip_and_parse env (VString (fenced w1 w2 body))
      = ([ConsoleError JSONParseError; ConsoleLog (RawJSONString (trim body))],
         Normal VNull)).
Proof.
  intros H1 H2 Hfree.
  assert (E : strip_and_parse env (VString (fenced w1 w2 body))
              = parse_or_null env (trim body)).
  { unfold strip_and_parse. cbn [call_trim lift bind ret].
    change (trim (replace_fences (trim (fenced w1 w2 body))))
      with (cleaned (fenced w1 w2 body)).
    rewrite (cleaned_fenced w1 w2 body H1 H2), (cleaned_ignores_trim body).
    rewrite (replace_fences_fixed body Hfree).
    destruct (parse_or_null env (trim body)) as [t r]. destruct r; reflexivity. }
  split; [exact E|]. rewrite E. unfold parse_or_null.
  split; [intros v Hv|intros Hv]; rewrite Hv; reflexivity.
Qed.

Lemma fenced_parses_like_unfenced_witness :
  strip_and_parse (stub_env [] [] "") (VString (fenced LF LF text_T))
  = ([], Normal content_T).
Proof.
  exact (proj1 (proj2 (fenced_parses_like_unfenced
                         (stub_env [] [] "") LF LF text_T eq_refl eq_refl eq_refl))
               content_T eq_refl).
Defined.

(** C9, where it fails: a completion text with a fence marker inside a JSON
    string. [JSON.parse] reads the text as the object whose title is
    [a```b]; wrapped in fences and run through the step, the marker inside
    goes with the fences and the object returned has the title [ab]. *)
Lemma marker_inside_body_is_removed :
  parse_or_null (marked_env "") text_marked
  = ([], Normal (VObject [("main_title", VString "a```b")]))
  /\ strip_and_parse (marked_env "") (VString (fenced LF LF text_marked))
     = ([], Normal (VObject [("main_title", VString "ab")]))
  /\ cleaned (fenced LF LF text_marked) = text_unmarked
  /\ occurs "```" text_marked = true.
Proof. repeat split; reflexivity. Qed.

(** The step on the fenced text of the end-to-end scenario, with line feeds
    inside the markers and with nothing; the text holds no marker and no
    outer white space. *)
Example fenced_text_T :
  strip_and_parse (stub_env [] [] "") (VString (fenced LF LF text_T))
  = ([], Normal content_T)
  /\ strip_and_parse (stub_env [] [] "") (VString (fenced "" "" text_T))
     = ([], Normal content_T)
  /\ trim text_T = text_T /\ replace_fences text_T = text_T.
Proof. repeat split; reflexivity. Qed.

(** Line 87 comes before the step: a missing or empty completion is
    replaced by [{}], which is what the step then receives. *)
Example completion_content_default :
  completion_content (reply "") = ([], Normal (VString "{}"))
  /\ completion_content (VObject [("choices", VArray [])])
     = ([], Normal (VString "{}"))
  /\ completion_content VNull = ([], Throw TypeError).
Proof. repeat split; reflexivity. Qed.

(** *** How computations end *)

Lemma result_bind {A B} (m : M A) (k : A -> M B) :
  result (bind m k) =
  match result m with
  | Normal a => result (k a)
  | Throw e => Throw e
  end.
Proof.
  destruct m as [t [a|e]]; cbn [bind result snd]; [|reflexivity].
  destruct (k a); reflexivity.
Qed.

Lemma trace_bind {A B} (m : M A) (k : A -> M B) :
  trace (bind m k) =
  match result m with
  | Normal a => (trace m ++ trace (k a))%list
  | Throw e => trace m
  end.
Proof.
  destruct m as [t [a|e]]; cbn [bind result trace fst snd]; [|reflexivity].
  destruct (k a); reflexivity.
Qed.

Lemma result_try_catch {A} (body : M A) (handler : thrown -> M A) :
  result (try_catch body handler) =
  match result body with
  | Normal a => Normal a
  | Throw e => result (handler e)
  end.
Proof.
  destruct body as [t [a|e]]; cbn [try_catch result snd]; [reflexivity|].
  destruct (handler e); reflexivity.
Qed.

Lemma trace_try_catch {A} (body : M A) (handler : thrown -> M A) :
  trace (try_catch body handler) =
  match result body with
  | Normal a => trace body
  | Throw e => (trace body ++ trace (handler e))%list
  end.
Proof.
  destruct body as [t [a|e]]; cbn [try_catch result trace fst snd]; [reflexivity|].
  destruct (handler e); reflexivity.
Qed.

Lemma posts_app (t u : list event) : posts (t ++ u) = (posts t ++ posts u)%list.
Proof.
  induction t as [|e t IH]; [reflexivity|].
  destruct e; cbn [posts app]; rewrite IH; reflexivity.
Qed.

Lemma inserts_app (t u : list event) : inserts (t ++ u) = (inserts t ++ inserts u)%list.
Proof.
  induction t as [|e t IH]; [reflexivity|].
  destruct e; cbn [inserts app]; rewrite IH; reflexivity.
Qed.

Lemma selects_app (t u : list event) : selects (t ++ u) = (selects t ++ selects u)%list.
Proof.
  induction t as [|e t IH]; [reflexivity|].
  destruct e; cbn [selects app]; rewrite IH; reflexivity.
Qed.

Lemma silent_bind {A B} (m : M A) (k : A -> M B) :
  trace m = [] -> (forall a, trace (k a) = []) -> trace (bind m k) = [].
Proof.
  intros Hm Hk. rewrite trace_bind, Hm.
  destruct (result m); [apply Hk|reflexivity].
Qed.

Lemma silent_chain (v : value) (k : value -> M value) :
  (forall a, trace (k a) = []) -> trace (chain v k) = [].
Proof. intros Hk. unfold chain. destruct (nullish v); [reflexivity|apply Hk]. Qed.

(** Line 87 only reads: it performs no event, and what it returns normally
    is truthy. *)
Lemma completion_content_reads (d : value) :
  trace (completion_content d) = []
  /\ forall v, result (completion_content d) = Normal v -> truthy v = true.
Proof.
  unfold completion_content. split.
  - apply silent_bind; [|reflexivity].
    apply silent_bind; [reflexivity|]. intros choices.
    apply silent_chain. intros choices'.
    apply silent_bind; [reflexivity|]. intros first.
    apply silent_chain. intros first'.
    apply silent_bind; [reflexivity|]. intros message.
    apply silent_chain. reflexivity.
  - intros v. rewrite result_bind.
    match goal with |- match ?r with _ => _ end = _ -> _ => destruct r as [c|e] end;
      [|discriminate].
    cbn [ret result snd]. intros [= <-].
    destruct (truthy c) eqn:E; [exact E|reflexivity].
Qed.

Lemma result_bind_Normal {A B} (m : M A) (k : A -> M B) (b : B) :
  result (bind m k) = Normal b ->
  exists a, result m = Normal a /\ result (k a) = Normal b.
Proof.
  rewrite result_bind. destruct (result m) as [a|e]; [|discriminate].
  intros H. exists a. split; [reflexivity|exact H].
Qed.

Lemma strip_and_parse_result (env : Env) (aiResponse : value) :
  result (strip_and_parse env aiResponse) =
  match aiResponse with
  | VString s =>
      match JSON_parse env (cleaned s) with
      | Some v => Normal v
      | None => Normal VNull
      end
  | _ => Throw TypeError
  end.
Proof.
  destruct aiResponse; try reflexivity.
  unfold strip_and_parse, parse_or_null, cleaned. cbn [call_trim lift bind].
  destruct (JSON_parse env _); reflexivity.
Qed.

Lemma strip_and_parse_posts (env : Env) (aiResponse : value) :
  posts (trace (strip_and_parse env aiResponse)) = [].
Proof.
  destruct aiResponse; try reflexivity.
  unfold strip_and_parse, parse_or_null. cbn [call_trim lift bind].
  destruct (JSON_parse env _); reflexivity.
Qed.

Lemma on_error_null (error : thrown) :
  result (on_error error) = Normal VNull /\ posts (trace (on_error error)) = [].
Proof. destruct error as [| | |message [d|]]; split; reflexivity. Qed.

Lemma processDataWithAI_string (env : Env) (c : ascii) (s : string) :
  processDataWithAI env (VString (String c s))
  = try_catch (attempt env (VString (String c s))) on_error.
Proof. reflexivity. Qed.

Lemma processDataWithAI_guard (env : Env) (text : value) :
  is_string text = false \/ text = VString "" ->
  processDataWithAI env text
  = ([ConsoleError (InvalidInputText text)], Normal VNull).
Proof.
  intros [H| ->]; [|reflexivity].
  unfold processDataWithAI. rewrite H, orb_true_r. reflexivity.
Qed.

Lemma attempt_result (env : Env) (text v : value) :
  result (attempt env text) = Normal v ->
  v = VNull \/ exists j, JSON_parse env j = Some v.
Proof.
  unfold attempt. intros H.
  apply result_bind_Normal in H as (content & _ & H).
  apply result_bind_Normal in H as (d & _ & H).
  apply result_bind_Normal in H as (ai & _ & H).
  rewrite strip_and_parse_result in H.
  destruct ai as [| | | |body| |]; try discriminate.
  destruct (JSON_parse env (cleaned body)) as [w|] eqn:E; injection H as <-.
  - right. exists (cleaned body). exact E.
  - left. reflexivity.
Qed.

Lemma post_performs (env : Env) (content : string) :
  post env content
  = ([Post content],
     match axios_post env content with
     | Fulfilled d => Normal d
     | Rejected message r => Throw (AxiosError message r)
     end).
Proof. unfold post. destruct (axios_post env content); reflexivity. Qed.

Lemma attempt_posts (env : Env) (s : string) :
  posts (trace (attempt env (VString s))) = [slice0 1000 s].
Proof.
  unfold attempt. rewrite trace_bind. cbn [call_slice0 lift result trace fst snd app].
  rewrite trace_bind, post_performs. cbn [result trace fst snd].
  destruct (axios_post env (slice0 1000 s)) as [d|message r]; [|reflexivity].
  rewrite posts_app, trace_bind.
  destruct (completion_content_reads d) as [-> _].
  destruct (result (completion_content d)) as [ai|e]; [|reflexivity].
  cbn [app]. rewrite strip_and_parse_posts. reflexivity.
Qed.

Lemma no_table_event_app (t u : list event) :
  no_table_event t -> no_table_event u -> no_table_event (t ++ u).
Proof.
  intros [Hi Hs] [Hi' Hs']. split.
  - rewrite inserts_app, Hi, Hi'. reflexivity.
  - rewrite selects_app, Hs, Hs'. reflexivity.
Qed.

Lemma strip_and_parse_no_table (env : Env) (aiResponse : value) :
  no_table_event (trace (strip_and_parse env aiResponse)).
Proof.
  destruct aiResponse; try (split; reflexivity).
  unfold strip_and_parse, parse_or_null. cbn [call_trim lift bind].
  destruct (JSON_parse env _); split; reflexivity.
Qed.

Lemma attempt_no_table (env : Env) (s : string) :
  no_table_event (trace (attempt env (VString s))).
Proof.
  unfold attempt. rewrite trace_bind. cbn [call_slice0 lift result trace fst snd app].
  rewrite trace_bind, post_performs. cbn [result trace fst snd].
  destruct (axios_post env (slice0 1000 s)) as [d|message r]; [|split; reflexivity].
  apply (no_table_event_app [_]); [split; reflexivity|].
  rewrite trace_bind.
  destruct (completion_content_reads d) as [-> _].
  destruct (result (completion_content d)) as [ai|e]; [|split; reflexivity].
  apply strip_and_parse_no_table.
Qed.

Lemma processDataWithAI_no_table (env : Env) (text : value) :
  no_table_event (trace (processDataWithAI env text)).
Proof.
  destruct (is_string text) eqn:E;
    [|rewrite (processDataWithAI_guard env text (or_introl E)); split; reflexivity].
  destruct text as [| | | |s| |]; try discriminate.
  destruct s as [|c s]; [split; reflexivity|].
  rewrite processDataWithAI_string, trace_try_catch.
  pose proof (attempt_no_table env (String c s)) as H.
  destruct (result (attempt env (VString (String c s)))) as [v|e]; [exact H|].
  apply no_table_event_app; [exact H|].
  destruct e as [| | |message [d|]]; split; reflexivity.
Qed.

(** [processDataWithAI] returns: [null] or a value [JSON.parse] produced. *)
Lemma processDataWithAI_returns (env : Env) (text : value) :
  exists v, result (processDataWithAI env text) = Normal v
            /\ (v = VNull \/ exists j, JSON_parse env j = Some v).
Proof.
  destruct (is_string text) eqn:Es;
    [|rewrite (processDataWithAI_guard env text (or_introl Es));
      exists VNull; split; [reflexivity|left; reflexivity]].
  destruct text as [| | | |s| |]; try discriminate.
  destruct s as [|c s]; [exists VNull; split; [reflexivity|left; reflexivity]|].
  rewrite processDataWithAI_string, result_try_catch.
  destruct (result (attempt env (VString (String c s)))) as [v|e] eqn:E.
  - exists v. split; [reflexivity|]. exact (attempt_result env _ v E).
  - exists VNull. split; [apply on_error_null|left; reflexivity].
Qed.

(** C5: [processDataWithAI] always returns, and what it returns is [null] or
    a value [JSON.parse] produced; a rejected request (a non-2xx answer or a
    network failure) and a completion text that is not JSON both give
    [null]. *)
Theorem generator_never_throws (env : Env) (text : value) :
  (exists v, result (processDataWithAI env text) = Normal v
             /\ (v = VNull \/ exists j, JSON_parse env j = Some v))
  /\ (forall s message r,
        text = VString s ->
        axios_post env (slice0 1000 s) = Rejected message r ->
        result (processDataWithAI env text) = Normal VNull)
  /\ (forall s d body,
        text = VString s ->
        axios_post env (slice0 1000 s) = Fulfilled d ->
        result (completion_content d) = Normal (VString body) ->
        JSON_parse env (cleaned body) = None ->
        result (processDataWithAI env text) = Normal VNull).
Proof.
  assert (Hguard : forall t, is_string t = false \/ t = VString "" ->
            result (processDataWithAI env t) = Normal VNull)
    by (intros t Ht; rewrite (processDataWithAI_guard env t Ht); reflexivity).
  split; [|split].
  - apply processDataWithAI_returns.
  - intros s message r -> Hpost.
    destruct s as [|c s]; [apply Hguard; right; reflexivity|].
    rewrite processDataWithAI_string, result_try_catch.
    unfold attempt. rewrite result_bind. unfold lift at 1. cbn [call_slice0 result snd].
    rewrite result_bind, post_performs, Hpost. cbn [result snd]. apply on_error_null.
  - intros s d body -> Hpost Hcontent Hparse.
    destruct s as [|c s]; [apply Hguard; right; reflexivity|].
    rewrite processDataWithAI_string, result_try_catch.
    unfold attempt. rewrite result_bind. unfold lift at 1. cbn [call_slice0 result snd].
    rewrite result_bind, post_performs, Hpost. cbn [result snd].
    rewrite result_bind, Hcontent, strip_and_parse_result, Hparse. reflexivity.
Qed.

(** C8: a value that is not a string and the empty string are answered
    [null] after one log line, with no request made; for a string, the only
    user message ever sent is its first 1000 characters. *)
Theorem generator_guard_and_truncation (env : Env) :
  (forall text,
      is_string text = false \/ text = VString "" ->
      processDataWithAI env text
      = ([ConsoleError (InvalidInputText text)], Normal VNull)
      /\ posts (trace (processDataWithAI env text)) = [])
  /\ (forall s,
        posts (trace (processDataWithAI env (VString s)))
        = match s with
          | EmptyString => []
          | _ => [slice0 1000 s]
          end)
  /\ (forall s,
        slice0 1000 s = substring 0 1000 s
        /\ (String.length (slice0 1000 s) <= 1000)%nat
        /\ exists rest, s = slice0 1000 s ++ rest).
Proof.
  split; [|split].
  - intros text H. rewrite (processDataWithAI_guard env text H).
    split; reflexivity.
  - intros [|c s]; [reflexivity|].
    rewrite processDataWithAI_string, trace_try_catch.
    pose proof (attempt_posts env (String c s)) as Hp.
    destruct (result (attempt env (VString (String c s)))) as [v|e]; [exact Hp|].
    rewrite posts_app, Hp. destruct (on_error_null e) as [_ ->]. reflexivity.
  - intros s. generalize 1000%nat. intros n. revert s.
    induction n as [|n IH]; intros s.
    + destruct s; (split; [reflexivity|split; [simpl; lia|]]); eexists; reflexivity.
    + destruct s as [|c s]; [split; [reflexivity|split; [simpl; lia|exists ""; reflexivity]]|].
      destruct (IH s) as (E & L & rest & Hr).
      cbn [slice0 substring String.length]. rewrite <- E.
      split; [reflexivity|split; [lia|]].
      exists rest. cbn [append]. f_equal. exact Hr.
Qed.

End GeneratorSpec.

(** ** The batch orchestrator: properties *)

Module OrchestratorSpec.
Import JS World Generator Orchestrator Spec Stubs GeneratorSpec.
Open Scope js_scope.

Lemma get_field (v : value) (k : string) :
  nullish v = false -> get v k = Normal (field v k).
Proof. destruct v; try discriminate; reflexivity. Qed.

Lemma truthy_not_nullish (v : value) : truthy v = true -> nullish v = false.
Proof. destruct v; try discriminate; reflexivity. Qed.

Lemma field_absent (fields : list (string * value)) (k : string) :
  (forall v, ~ In (k, v) fields) -> field (VObject fields) k = VUndefined.
Proof.
  cbn [field]. induction fields as [|[k' v'] fields IH]; intros H; [reflexivity|].
  cbn [lookup]. destruct (String.eqb_spec k k') as [->|Hne].
  - exfalso. apply (H v'). left. reflexivity.
  - apply IH. intros v Hin. apply (H v). right. exact Hin.
Qed.

Lemma rejected_spec (v : value) :
  rejected v = ([], Normal (negb (accepted v))).
Proof.
  unfold rejected, accepted.
  destruct (truthy v) eqn:Hv; [|reflexivity].
  rewrite !(get_field v _ (truthy_not_nullish v Hv)).
  cbn [lift bind negb andb].
  destruct (truthy (field v "main_title")); [|reflexivity].
  cbn [negb andb bind ret app]. reflexivity.
Qed.

Lemma build_row_spec (entry : source_row) (v : value) :
  nullish v = false -> build_row entry v = ([], Normal (row_of entry v)).
Proof.
  intros Hv. unfold build_row. rewrite !(get_field v _ Hv). reflexivity.
Qed.

Lemma accepted_not_nullish (v : value) : accepted v = true -> nullish v = false.
Proof.
  unfold accepted. intros H. apply andb_prop in H as [H _].
  apply andb_prop in H as [H _]. exact (truthy_not_nullish v H).
Qed.

(** One identifier: the body of the loop always runs to its end, with the
    events of [entry_trace]. *)
Lemma process_entry_spec (env : Env) (id : number) :
  process_entry env id = (entry_trace env id, Normal tt).
Proof.
  unfold process_entry, entry_trace, generated, returned.
  destruct (error (select_eq env id)) as [message|]; [reflexivity|].
  destruct (data (select_eq env id)) as [[|entry rest]|]; try reflexivity.
  destruct (processDataWithAI_returns env (VString (prompt entry))) as (v & Hv & _).
  destruct (processDataWithAI env (VString (prompt entry))) as [t r].
  cbn [result snd trace fst] in Hv |- *. subst r.
  cbn [emit bind app]. rewrite rejected_spec. cbn [bind app].
  destruct (accepted v) eqn:Ha; cbn [negb].
  - rewrite (build_row_spec entry v (accepted_not_nullish v Ha)).
    cbn [emit bind app].
    destruct (insert env (row_of entry v)); cbn [emit app];
      rewrite ?app_nil_r; reflexivity.
  - cbn [emit app]. rewrite ?app_nil_r. reflexivity.
Qed.

Lemma for_of_spec {A} (body : A -> M unit) (f : A -> list event) (l : list A) :
  (forall x, body x = (f x, Normal tt)) ->
  for_of l body = (flat_map f l, Normal tt).
Proof.
  intros H. induction l as [|x l IH]; [reflexivity|].
  cbn [for_of flat_map]. rewrite H, IH. reflexivity.
Qed.

(** The batch: every identifier is processed, in order, each with its own
    events. *)
Lemma processEntries_spec (env : Env) (ids : list number) :
  processEntries env ids = (flat_map (entry_trace env) ids, Normal tt).
Proof. apply for_of_spec, process_entry_spec. Qed.

Lemma entry_trace_selects (env : Env) (id : number) :
  selects (entry_trace env id) = [id].
Proof.
  unfold entry_trace. cbn [selects]. f_equal.
  destruct (error (select_eq env id)); [reflexivity|].
  destruct (data (select_eq env id)) as [[|entry rest]|]; try reflexivity.
  cbn [selects]. rewrite selects_app.
  destruct (processDataWithAI_no_table env (VString (prompt entry))) as [_ ->].
  destruct (accepted (generated env entry)); [|reflexivity].
  destruct (insert env _); reflexivity.
Qed.

Lemma entry_trace_inserts (env : Env) (id : number) :
  inserts (entry_trace env id) =
  match error (select_eq env id), data (select_eq env id) with
  | None, Some (entry :: _) =>
      if accepted (generated env entry) then [row_of entry (generated env entry)]
      else []
  | _, _ => []
  end.
Proof.
  unfold entry_trace. cbn [inserts].
  destruct (error (select_eq env id)); [reflexivity|].
  destruct (data (select_eq env id)) as [[|entry rest]|]; try reflexivity.
  cbn [inserts]. rewrite inserts_app.
  destruct (processDataWithAI_no_table env (VString (prompt entry))) as [-> _].
  destruct (accepted (generated env entry)); [|reflexivity].
  destruct (insert env _); reflexivity.
Qed.

Lemma selects_flat_map (env : Env) (ids : list number) :
  selects (flat_map (entry_trace env) ids) = ids.
Proof.
  induction ids as [|id ids IH]; [reflexivity|].
  cbn [flat_map]. rewrite selects_app, entry_trace_selects, IH. reflexivity.
Qed.

Lemma failure_stores_nothing (env : Env) (id : number) :
  failure env id -> stored env (entry_trace env id) = [].
Proof.
  unfold stored. rewrite entry_trace_inserts.
  intros [message He|He [Hd|Hd]|entry rest He Hd Ha|entry rest message He Hd Ha Hi];
    rewrite He; try reflexivity; rewrite Hd; try reflexivity; rewrite Ha; [reflexivity|].
  cbn [filter]. rewrite Hi. reflexivity.
Qed.

(** *** Properties of the batch *)

(** C1: the batch never stops early and the events of each identifier are
    its own, whatever happened to the identifiers before it; an identifier
    that fails at any stage (fetch error, no row, rejected content, insert
    error) leaves the stored rows and the events of the others as they are
    without it; with [1, 2, 3] and a fetch error on 2, the destination
    receives the inserts of 1 and 3 and all three identifiers are queried. *)
Theorem failures_are_isolated (env : Env) :
  (forall ids,
      result (processEntries env ids) = Normal tt
      /\ trace (processEntries env ids)
         = flat_map (fun id => trace (process_entry env id)) ids)
  /\ (forall before id after,
        failure env id ->
        trace (processEntries env (before ++ id :: after))
        = (trace (processEntries env before)
           ++ trace (process_entry env id)
           ++ trace (processEntries env after))%list
        /\ stored env (trace (processEntries env (before ++ id :: after)))
           = stored env (trace (processEntries env (before ++ after)))
        /\ selects (trace (processEntries env (before ++ id :: after)))
           = (before ++ id :: after)%list)
  /\ (forall message r1 r3,
        error (select_eq env (Int 2)) = Some message ->
        inserts (trace (process_entry env (Int 1))) = [r1] ->
        inserts (trace (process_entry env (Int 3))) = [r3] ->
        inserts (trace (processEntries env [Int 1; Int 2; Int 3])) = [r1; r3]
        /\ selects (trace (processEntries env [Int 1; Int 2; Int 3]))
           = [Int 1; Int 2; Int 3]).
Proof.
  assert (Hstored : forall t u, stored env (t ++ u) = (stored env t ++ stored env u)%list)
    by (intros t u; unfold stored; rewrite inserts_app; apply filter_app).
  split; [|split].
  - intros ids. rewrite processEntries_spec. split; [reflexivity|].
    cbn [trace fst]. apply flat_map_ext. intros id.
    rewrite process_entry_spec. reflexivity.
  - intros before id after Hfail.
    rewrite !processEntries_spec, process_entry_spec. cbn [trace fst].
    rewrite !flat_map_app. cbn [flat_map]. split; [reflexivity|split].
    + rewrite !Hstored, (failure_stores_nothing env id Hfail). reflexivity.
    + rewrite !selects_app, !selects_flat_map, entry_trace_selects. reflexivity.
  - intros message r1 r3 H2 H1 H3.
    rewrite processEntries_spec. rewrite !process_entry_spec in *.
    cbn [trace fst flat_map] in *.
    split.
    + rewrite !inserts_app, H1, H3, (entry_trace_inserts env (Int 2)), H2.
      reflexivity.
    + rewrite !selects_app, !entry_trace_selects. reflexivity.
Qed.

Lemma failures_are_isolated_witness :
  let env := stub_env [1; 3] [2] text_T in
  inserts (trace (processEntries env [Int 1; Int 2; Int 3])) = [row_T; row_T]
  /\ selects (trace (processEntries env [Int 1; Int 2; Int 3]))
     = [Int 1; Int 2; Int 3].
Proof.
  exact (proj2 (proj2 (failures_are_isolated (stub_env [1; 3] [2] text_T)))
           "connection reset" row_T row_T eq_refl eq_refl eq_refl).
Defined.

Lemma generated_returned (env : Env) (entry : source_row) (v : value) :
  result (processDataWithAI env (VString (prompt entry))) = Normal v ->
  generated env entry = v.
Proof. unfold generated, returned. intros ->. reflexivity. Qed.

Lemma rejected_false_accepted (v : value) :
  result (rejected v) = Normal false -> accepted v = true.
Proof.
  rewrite rejected_spec. cbn [result snd]. intros [= H].
  destruct (accepted v); [reflexivity|discriminate].
Qed.

(** C3: when the query gives a row and the generated content passes the
    check of line 132, exactly one row goes to the destination: its category
    is the entry's, its title and description are the content's
    [main_title] and [main_description], its [read_more_titles] is the
    content's [read_more_titles] and its [read_more_texts] the content's
    [read_more_descriptions]. The table keeps it unless it answers with an
    error. *)
Theorem saved_row_is_built_from_content
    (env : Env) (id : number) (entry : source_row) (rest : list source_row)
    (blogContent : value) :
  error (select_eq env id) = None ->
  data (select_eq env id) = Some (entry :: rest) ->
  result (processDataWithAI env (VString (prompt entry))) = Normal blogContent ->
  result (rejected blogContent) = Normal false ->
  exists main_title main_description titles descriptions row,
    get blogContent "main_title" = Normal main_title
    /\ get blogContent "main_description" = Normal main_description
    /\ get blogContent "read_more_titles" = Normal titles
    /\ get blogContent "read_more_descriptions" = Normal descriptions
    /\ row = {| dest_category_display_name := category_display_name entry;
                title := main_title;
                description := main_description;
                read_more_titles := titles;
                read_more_texts := descriptions |}
    /\ inserts (trace (process_entry env id)) = [row]
    /\ inserts (trace (processEntries env [id])) = [row]
    /\ stored env (trace (process_entry env id))
       = match insert env row with
         | None => [row]
         | Some _ => []
         end.
Proof.
  intros He Hd Hv Hok.
  apply rejected_false_accepted in Hok.
  pose proof (accepted_not_nullish _ Hok) as Hn.
  exists (field blogContent "main_title"), (field blogContent "main_description"),
         (field blogContent "read_more_titles"),
         (field blogContent "read_more_descriptions"),
         (row_of entry blogContent).
  rewrite !(get_field blogContent _ Hn).
  repeat (split; [reflexivity|]).
  assert (Hi : inserts (entry_trace env id) = [row_of entry blogContent]).
  { rewrite entry_trace_inserts, He, Hd, (generated_returned env entry _ Hv), Hok.
    reflexivity. }
  unfold stored.
  rewrite processEntries_spec, process_entry_spec. cbn [trace fst flat_map].
  rewrite app_nil_r, Hi. cbn [filter].
  repeat split. destruct (insert env (row_of entry blogContent)); reflexivity.
Qed.

Lemma saved_row_is_built_from_content_witness :
  let env := stub_env [5] [] text_T in
  exists main_title main_description titles descriptions row,
    get content_T "main_title" = Normal main_title
    /\ get content_T "main_description" = Normal main_description
    /\ get content_T "read_more_titles" = Normal titles
    /\ get content_T "read_more_descriptions" = Normal descriptions
    /\ row = {| dest_category_display_name := category_display_name (entry_of 5);
                title := main_title;
                description := main_description;
                read_more_titles := titles;
                read_more_texts := descriptions |}
    /\ inserts (trace (process_entry env (Int 5))) = [row]
    /\ inserts (trace (processEntries env [Int 5])) = [row]
    /\ stored env (trace (process_entry env (Int 5)))
       = match insert env row with
         | None => [row]
         | Some _ => []
         end.
Proof.
  exact (saved_row_is_built_from_content (stub_env [5] [] text_T) (Int 5)
           (entry_of 5) [] content_T eq_refl eq_refl eq_refl eq_refl).
Defined.

(** The end-to-end scenario, evaluated. *)
Example end_to_end :
  processEntries (stub_env [5] [] text_T) [Int 5]
  = ([Select (Int 5); ConsoleLog (ProcessingEntry (Int 5)); Post "Q A Cat";
      Insert row_T; ConsoleLog (Saved (Int 5))],
     Normal tt).
Proof. reflexivity. Qed.

(** C4: when the generated content is [null], or its [main_title] or
    [main_description] is missing or empty, the identifier gets no insert,
    its last event is the skip line, and the identifiers after it are
    processed as they would be on their own. *)
Theorem invalid_content_is_skipped
    (env : Env) (id : number) (entry : source_row) (rest : list source_row)
    (blogContent : value) (after : list number) :
  error (select_eq env id) = None ->
  data (select_eq env id) = Some (entry :: rest) ->
  result (processDataWithAI env (VString (prompt entry))) = Normal blogContent ->
  blogContent = VNull
  \/ truthy (field blogContent "main_title") = false
  \/ truthy (field blogContent "main_description") = false ->
  inserts (trace (process_entry env id)) = []
  /\ (exists t, trace (process_entry env id)
                = (t ++ [ConsoleLog (NoValidContent id)])%list)
  /\ result (process_entry env id) = Normal tt
  /\ trace (processEntries env (id :: after))
     = (trace (process_entry env id) ++ trace (processEntries env after))%list
  /\ selects (trace (processEntries env (id :: after))) = id :: after.
Proof.
  intros He Hd Hv Hbad.
  assert (Ha : accepted blogContent = false).
  { unfold accepted. destruct Hbad as [->|[H|H]]; [reflexivity| |];
      rewrite H, ?andb_false_r; reflexivity. }
  rewrite !processEntries_spec, process_entry_spec. cbn [trace result fst snd flat_map].
  split; [|split; [|split; [|split]]]; try reflexivity.
  - rewrite entry_trace_inserts, He, Hd, (generated_returned env entry _ Hv), Ha.
    reflexivity.
  - unfold entry_trace. rewrite He, Hd, (generated_returned env entry _ Hv), Ha.
    eexists (_ :: _ :: _)%list. cbn [app]. reflexivity.
  - rewrite selects_app, entry_trace_selects, selects_flat_map. reflexivity.
Qed.

Lemma invalid_content_is_skipped_witness :
  let env := stub_env [1; 3] [] text_no_description in
  inserts (trace (process_entry env (Int 1))) = []
  /\ (exists t, trace (process_entry env (Int 1))
                = (t ++ [ConsoleLog (NoValidContent (Int 1))])%list)
  /\ result (process_entry env (Int 1)) = Normal tt
  /\ trace (processEntries env [Int 1; Int 3])
     = (trace (process_entry env (Int 1)) ++ trace (processEntries env [Int 3]))%list
  /\ selects (trace (processEntries env [Int 1; Int 3])) = [Int 1; Int 3].
Proof.
  exact (invalid_content_is_skipped (stub_env [1; 3] [] text_no_description) (Int 1)
           (entry_of 1) [] content_no_description [Int 3]
           eq_refl eq_refl eq_refl (or_intror (or_intror eq_refl))).
Defined.

(** C10: the check of line 132 looks at [main_title] and [main_description]
    only. Whenever both are non-empty strings the insert is made, and the
    row carries whatever [read_more_titles] and [read_more_descriptions]
    read as on the content: no condition bears on them, so they may be
    [undefined] (an absent property), a value that is no array, or an array
    of any length. *)
Theorem only_main_fields_are_checked
    (env : Env) (id : number) (entry : source_row) (rest : list source_row)
    (blogContent : value) (main_title main_description : string)
    (titles descriptions : value) :
  error (select_eq env id) = None ->
  data (select_eq env id) = Some (entry :: rest) ->
  result (processDataWithAI env (VString (prompt entry))) = Normal blogContent ->
  field blogContent "main_title" = VString main_title -> main_title <> "" ->
  field blogContent "main_description" = VString main_description ->
  main_description <> "" ->
  field blogContent "read_more_titles" = titles ->
  field blogContent "read_more_descriptions" = descriptions ->
  result (rejected blogContent) = Normal false
  /\ inserts (trace (process_entry env id))
     = [{| dest_category_display_name := category_display_name entry;
           title := VString main_title;
           description := VString main_description;
           read_more_titles := titles;
           read_more_texts := descriptions |}].
Proof.
  intros He Hd Hv Ht Htne Hm Hmne Hrt Hrd.
  assert (Ha : accepted blogContent = true).
  { unfold accepted. rewrite Ht, Hm.
    destruct blogContent; try discriminate.
    destruct main_title; [contradiction|].
    destruct main_description; [contradiction|]. reflexivity. }
  split.
  - rewrite rejected_spec, Ha. reflexivity.
  - rewrite process_entry_spec. cbn [trace fst].
    rewrite entry_trace_inserts, He, Hd, (generated_returned env entry _ Hv), Ha.
    unfold row_of. rewrite Ht, Hm, Hrt, Hrd. reflexivity.
Qed.

Lemma only_main_fields_are_checked_witness :
  let env := stub_env [5] [] text_main_only in
  result (rejected content_main_only) = Normal false
  /\ inserts (trace (process_entry env (Int 5)))
     = [{| dest_category_display_name := Some "Cat";
           title := VString "T";
           description := VString "D";
           read_more_titles := VUndefined;
           read_more_texts := VUndefined |}].
Proof.
  refine (only_main_fields_are_checked (stub_env [5] [] text_main_only) (Int 5)
            (entry_of 5) [] content_main_only "T" "D" VUndefined VUndefined
            eq_refl eq_refl eq_refl eq_refl _ eq_refl _ eq_refl eq_refl);
    discriminate.
Defined.

(** Malformed extra fields go into the row as they are. *)
Example malformed_read_more_is_inserted :
  let content :=
    VObject [("main_title", VString "T"); ("main_description", VString "D");
             ("read_more_titles", VString "not an array");
             ("read_more_descriptions", VArray [VString "only one"])] in
  result (rejected content) = Normal false
  /\ result (build_row (entry_of 5) content)
     = Normal {| dest_category_display_name := Some "Cat";
                 title := VString "T";
                 description := VString "D";
                 read_more_titles := VString "not an array";
                 read_more_texts := VArray [VString "only one"] |}.
Proof. split; reflexivity. Qed.

End OrchestratorSpec.

(** ** The script around the batch: properties *)

Module ScriptSpec.
Import JS Parser World Orchestrator Spec Stubs ParserSpec.

(** C2, where it fails: the descending range [20-10] is not rejected. The
    length [10 - 20 + 1] is negative, [Array.from] takes it as 0, and the
    script goes on with an empty identifier list. *)
Lemma descending_range_is_accepted :
  idList "20-10" = Ids []
  /\ idList "20-10" <> InvalidFormat
  /\ script (stub_env [] [] "") ["node"; "server.js"; "20-10"]
     = ([ConsoleLog (ProcessingIDs [])], Serving).
Proof.
  split; [reflexivity|]. split; [discriminate|reflexivity].
Qed.

(** C2, as the code has it: the format error is raised exactly for the
    specs that hold neither a dash nor a comma, such as [abc]; the script
    then logs the error and exits with status 1 before any query, request or
    insert. The descending range [20-10] gives the empty identifier list,
    and the script runs the batch over nothing. *)
Theorem separator_free_spec_is_rejected :
  (forall args,
      idList args = InvalidFormat
      <-> includes "-" args = false /\ includes "," args = false)
  /\ idList "abc" = InvalidFormat
  /\ (forall env node file,
        script env [node; file; "abc"]
        = ([ConsoleError InvalidIDFormat], Exited 1))
  /\ idList "20-10" = Ids []
  /\ (forall env node file,
        script env [node; file; "20-10"]
        = ([ConsoleLog (ProcessingIDs [])], Serving)).
Proof.
  split; [exact idList_InvalidFormat_iff|].
  repeat split; reflexivity.
Qed.

End ScriptSpec.

(** ** The identifier-set parser: edge behaviour *)

Module ParserMore.
Import JS Parser World Orchestrator Spec Stubs More.
Import StringFacts NumberFacts NumeralFacts ParserSpec FenceFacts.

(** *** Reading the sign and the decimal point *)

Lemma sign_cases {A} (s : string) (plus minus : string -> A) (other : A) :
  match s with
  | String "+" r => plus r
  | String "-" r => minus r
  | _ => other
  end
  = match s with
    | String c r =>
        if Ascii.eqb c "+" then plus r
        else if Ascii.eqb c "-" then minus r
        else other
    | EmptyString => other
    end.
Proof.
  destruct s as [|c r]; [reflexivity|].
  destruct c as [[] [] [] [] [] [] [] []]; reflexivity.
Qed.

Lemma dot_cases {A} (s : string) (dot : string -> A) (other : A) :
  match s with
  | String "." r => dot r
  | _ => other
  end
  = match s with
    | String c r => if Ascii.eqb c "." then dot r else other
    | EmptyString => other
    end.
Proof.
  destruct s as [|c r]; [reflexivity|].
  destruct c as [[] [] [] [] [] [] [] []]; reflexivity.
Qed.

Lemma includes_white (c : ascii) (w : string) :
  is_white_space c = false -> all_white w = true -> includes c w = false.
Proof.
  intros Hc. induction w as [|a w IH]; [reflexivity|].
  cbn [all_white includes]. intros H. apply andb_prop in H as [Ha Hw].
  rewrite (IH Hw), orb_false_r.
  destruct (Ascii.eqb_spec a c) as [->|_]; [congruence|reflexivity].
Qed.

Lemma includes_trim (c : ascii) (s : string) :
  is_white_space c = false -> includes c (trim s) = includes c s.
Proof.
  intros Hc. destruct (trim_split s) as (w1 & w2 & H1 & H2 & E).
  rewrite E at 2. rewrite !includes_app.
  rewrite (includes_white c w1 Hc H1), (includes_white c w2 Hc H2), orb_false_r.
  reflexivity.
Qed.

(** *** What [Number] makes of a sign-free string and of a comma *)

Lemma of_decimal_unsigned (m : N) (e z : Z) :
  of_decimal false m e = Int z -> 0 <= z.
Proof.
  unfold of_decimal.
  destruct (Z.of_N m =? 0); [intros [= <-]; lia|].
  destruct (0 <=? e) eqn:He.
  - apply Z.leb_le in He.
    destruct (Z.of_N m * 10 ^ e <=? MAX_SAFE); [|discriminate].
    intros [= <-]. change (0 <= 1 * (Z.of_N m * 10 ^ e)). rewrite Z.mul_1_l.
    apply Z.mul_nonneg_nonneg; [lia|]. apply Z.pow_nonneg. lia.
  - apply Z.leb_gt in He.
    destruct (Z.of_N m mod 10 ^ (- e) =? 0).
    + destruct (Z.of_N m / 10 ^ (- e) <=? MAX_SAFE); [|discriminate].
      intros [= <-]. change (0 <= 1 * (Z.of_N m / 10 ^ (- e))). rewrite Z.mul_1_l.
      apply Z.div_pos; [lia|]. apply Z.pow_pos_nonneg; lia.
    + destruct (Z.of_N m * 2 ^ 1075 <=? 10 ^ (- e)); [|discriminate].
      intros [= <-]. lia.
Qed.

Lemma unsigned_decimal_unsigned (s : string) (z : Z) :
  unsigned_decimal false s = Int z -> 0 <= z.
Proof.
  unfold unsigned_decimal.
  destruct (digits 10 0 0 s) as [[ip ni] r1].
  destruct (match r1 with
            | String "." r => digits 10 ip 0 r
            | _ => (ip, O, r1)
            end) as [[m nf] r2].
  destruct (exponent_part r2) as [e|].
  - destruct ni, nf; try discriminate; apply of_decimal_unsigned.
  - destruct ni, nf; discriminate.
Qed.

Lemma radix_literal_unsigned (s : string) (z : Z) :
  radix_literal s = Some (Int z) -> 0 <= z.
Proof.
  assert (Hd : forall b r,
            match digits b 0 0 r with
            | (v, S _, EmptyString) =>
                Some (if Z.of_N v <=? MAX_SAFE then Int (Z.of_N v) else Other)
            | _ => Some NaN
            end = Some (Int z) -> 0 <= z).
  { intros b r. destruct (digits b 0 0 r) as [[v n] rest].
    destruct n; [discriminate|]. destruct rest; [|discriminate].
    destruct (Z.of_N v <=? MAX_SAFE); [|discriminate]. intros [= <-]. lia. }
  unfold radix_literal.
  destruct s as [|c s]; [discriminate|].
  destruct (Ascii.eqb_spec c "0") as [->|Hc].
  - destruct s as [|p r]; [discriminate|].
    destruct (Ascii.eqb p "x" || Ascii.eqb p "X"); [apply Hd|].
    destruct (Ascii.eqb p "o" || Ascii.eqb p "O"); [apply Hd|].
    destruct (Ascii.eqb p "b" || Ascii.eqb p "B"); [apply Hd|].
    discriminate.
  - destruct c as [[] [] [] [] [] [] [] []]; try discriminate.
    contradiction Hc; reflexivity.
Qed.

(** Without a dash in the string, an integer that [Number] reads is not
    negative. *)
Lemma Number_unsigned (s : string) (z : Z) :
  includes "-" s = false -> Number s = Int z -> 0 <= z.
Proof.
  intros Hs. rewrite <- (includes_trim "-" s eq_refl) in Hs.
  unfold Number. destruct (trim s) as [|c t]; [intros [= <-]; lia|].
  destruct (radix_literal (String c t)) as [n|] eqn:Hr.
  - intros ->. exact (radix_literal_unsigned _ _ Hr).
  - unfold decimal_literal.
    rewrite (sign_cases (String c t) (fun r => (false, r)) (fun r => (true, r))
               (false, String c t)).
    cbn [includes] in Hs. apply orb_false_elim in Hs as [Hc Ht].
    rewrite Hc. destruct (Ascii.eqb c "+").
    + destruct (String.eqb t "Infinity"); [discriminate|].
      apply unsigned_decimal_unsigned.
    + destruct (String.eqb (String c t) "Infinity"); [discriminate|].
      apply unsigned_decimal_unsigned.
Qed.

Lemma digits_keeps (c : ascii) (b : N) (s : string) (acc : N) (cnt : nat) :
  digit_of b c = None -> includes c s = true ->
  includes c (snd (digits b acc cnt s)) = true.
Proof.
  intros Hc. revert acc cnt. induction s as [|a s IH]; intros acc cnt; [discriminate|].
  cbn [digits]. destruct (digit_of b a) as [d|] eqn:Ha; [|intros H; exact H].
  cbn [includes]. destruct (Ascii.eqb_spec a c) as [->|_]; [congruence|].
  cbn [orb]. apply IH.
Qed.

Lemma digits_stop (c : ascii) (b : N) (s : string) :
  digit_of b c = None -> includes c s = true ->
  exists v n a r, digits b 0 0 s = (v, n, String a r).
Proof.
  intros Hc Hs. pose proof (digits_keeps c b s 0 0 Hc Hs) as H.
  destruct (digits b 0 0 s) as [[v n] r]. cbn [snd] in H.
  destruct r as [|a r]; [discriminate|]. exists v, n, a, r. reflexivity.
Qed.

Lemma comma_no_digit (b : N) : digit_of b "," = None.
Proof. reflexivity. Qed.

Lemma exponent_part_comma (s : string) :
  includes "," s = true -> exponent_part s = None.
Proof.
  unfold exponent_part. destruct s as [|c s]; [discriminate|].
  destruct (Ascii.eqb c "e" || Ascii.eqb c "E") eqn:Ec; [|reflexivity].
  intros H. cbn [includes] in H.
  assert (Hs : includes "," s = true).
  { destruct (Ascii.eqb_spec c ",") as [->|_]; [discriminate Ec|exact H]. }
  rewrite (sign_cases s (fun r => (false, r)) (fun r => (true, r)) (false, s)).
  assert (Hstop : forall neg r, includes "," r = true ->
            (let '(negative, s'') := (neg : bool, r) in
             match digits 10 0 0 s'' with
             | (v, S _, EmptyString) =>
                 Some (if negative then - Z.of_N v else Z.of_N v)
             | _ => None
             end) = None).
  { intros neg r Hr. destruct (digits_stop "," 10 r (comma_no_digit 10) Hr)
      as (v & n & a & r' & ->). destruct n; reflexivity. }
  destruct s as [|d r]; [discriminate|].
  destruct (Ascii.eqb_spec d "+") as [->|_]; [exact (Hstop false r Hs)|].
  destruct (Ascii.eqb_spec d "-") as [->|_]; [exact (Hstop true r Hs)|].
  exact (Hstop false (String d r) Hs).
Qed.

Lemma unsigned_decimal_comma (negative : bool) (s : string) :
  includes "," s = true -> unsigned_decimal negative s = NaN.
Proof.
  intros Hs. unfold unsigned_decimal.
  pose proof (digits_keeps "," 10 s 0 0 (comma_no_digit 10) Hs) as H1.
  destruct (digits 10 0 0 s) as [[ip ni] r1]. cbn [snd] in H1.
  rewrite (dot_cases r1 (fun r => digits 10 ip 0 r) (ip, O, r1)).
  assert (E : exists m nf r2,
            match r1 with
            | String c r => if Ascii.eqb c "." then digits 10 ip 0 r else (ip, O, r1)
            | EmptyString => (ip, O, r1)
            end = (m, nf, r2) /\ includes "," r2 = true).
  { destruct r1 as [|c r]; [discriminate|].
    destruct (Ascii.eqb_spec c ".") as [->|_].
    - cbn [includes] in H1.
      pose proof (digits_keeps "," 10 r ip 0 (comma_no_digit 10) H1) as H2.
      destruct (digits 10 ip 0 r) as [[m nf] r2]. exists m, nf, r2. auto.
    - exists ip, O, (String c r). auto. }
  destruct E as (m & nf & r2 & -> & H2).
  rewrite (exponent_part_comma r2 H2). destruct ni, nf; reflexivity.
Qed.

(** A string that holds a comma is not a number. *)
Lemma Number_comma (s : string) :
  includes "," s = true -> Number s = NaN.
Proof.
  intros Hs. rewrite <- (includes_trim "," s eq_refl) in Hs.
  unfold Number. destruct (trim s) as [|c t]; [discriminate|].
  destruct (radix_literal (String c t)) as [n|] eqn:Hr.
  - unfold radix_literal in Hr.
    destruct (Ascii.eqb_spec c "0") as [->|Hc].
    + destruct t as [|p r]; [discriminate|].
      assert (Hd : forall b,
                match digits b 0 0 r with
                | (v, S _, EmptyString) =>
                    Some (if Z.of_N v <=? MAX_SAFE then Int (Z.of_N v) else Other)
                | _ => Some NaN
                end = Some n -> includes "," r = true -> n = NaN).
      { intros b E Hr'.
        destruct (digits_stop "," b r (comma_no_digit b) Hr') as (v & k & a & r' & Hk).
        rewrite Hk in E. destruct k; injection E as <-; reflexivity. }
      cbn [includes] in Hs.
      destruct (Ascii.eqb p "x" || Ascii.eqb p "X") eqn:Ex.
      { apply (Hd _ Hr). destruct (Ascii.eqb_spec p ",") as [->|_]; [discriminate|exact Hs]. }
      destruct (Ascii.eqb p "o" || Ascii.eqb p "O") eqn:Eo.
      { apply (Hd _ Hr). destruct (Ascii.eqb_spec p ",") as [->|_]; [discriminate|exact Hs]. }
      destruct (Ascii.eqb p "b" || Ascii.eqb p "B") eqn:Eb.
      { apply (Hd _ Hr). destruct (Ascii.eqb_spec p ",") as [->|_]; [discriminate|exact Hs]. }
      discriminate.
    + destruct c as [[] [] [] [] [] [] [] []]; try discriminate.
      contradiction Hc; reflexivity.
  - unfold decimal_literal.
    rewrite (sign_cases (String c t) (fun r => (false, r)) (fun r => (true, r))
               (false, String c t)).
    assert (Hdec : forall neg r, includes "," r = true ->
              (let '(negative, r) := (neg : bool, r) in
               if String.eqb r "Infinity" then Other
               else unsigned_decimal negative r) = NaN).
    { intros neg r Hr'. destruct (String.eqb_spec r "Infinity") as [->|_];
        [discriminate|]. apply unsigned_decimal_comma, Hr'. }
    destruct (Ascii.eqb_spec c "+") as [->|_]; [exact (Hdec false t Hs)|].
    destruct (Ascii.eqb_spec c "-") as [->|_]; [exact (Hdec true t Hs)|].
    exact (Hdec false (String c t) Hs).
Qed.

(** *** Ranges *)

Lemma idList_range_pieces (t1 t2 tail : string) :
  includes "-" t1 = false -> includes "-" t2 = false ->
  tail = "" \/ (exists r, tail = String "-" r) ->
  idList (t1 ++ "-" ++ t2 ++ tail)
  = Array_from (bind_num (sub (Number t2) (Number t1)) (fun d => add d (Int 1)))
               (fun i => add (Number t1) (Int i)).
Proof.
  intros H1 H2 Htail. unfold idList.
  rewrite includes_app. cbn [includes append]. rewrite Ascii.eqb_refl, orb_true_r.
  rewrite (split_app_sep "-" t1 (t2 ++ tail) H1).
  destruct Htail as [->|(r & ->)].
  - rewrite append_nil_r, (split_free "-" t2 H2). reflexivity.
  - rewrite (split_app_sep "-" t2 r H2). reflexivity.
Qed.

Lemma idList_range_two (t1 t2 : string) :
  includes "-" t1 = false -> includes "-" t2 = false ->
  idList (t1 ++ "-" ++ t2)
  = Array_from (bind_num (sub (Number t2) (Number t1)) (fun d => add d (Int 1)))
               (fun i => add (Number t1) (Int i)).
Proof.
  intros H1 H2.
  rewrite <- (idList_range_pieces t1 t2 "" H1 H2 (or_introl eq_refl)).
  rewrite append_nil_r. reflexivity.
Qed.

Lemma Array_from_ascending (min max : Z) :
  Z.abs min <= MAX_SAFE -> Z.abs max <= MAX_SAFE ->
  min <= max -> max - min + 1 <= MAX_ARRAY_LENGTH ->
  Array_from (bind_num (sub (Int max) (Int min)) (fun d => add d (Int 1)))
             (fun i => add (Int min) (Int i))
  = Ids (map Int (inclusive min max)).
Proof.
  intros Smin Smax Hle Hlen.
  assert (HM : MAX_SAFE = 9007199254740992) by reflexivity.
  assert (HA : MAX_ARRAY_LENGTH = 4294967295) by reflexivity.
  cbn [sub bind_num]. rewrite exact_safe by lia. cbn [bind_num add].
  rewrite exact_safe by lia.
  unfold Array_from, ToLength.
  replace (Z.min (Z.max (max - min + 1) 0) (MAX_SAFE - 1)) with (max - min + 1) by lia.
  destruct (Z.ltb_spec MAX_ARRAY_LENGTH (max - min + 1)) as [Hbad|_]; [lia|].
  change (fun i : Z => exact (min + i)) with (fun i : Z => add (Int min) (Int i)).
  rewrite tabulate_add by (intros k Hk; lia).
  rewrite Z.add_0_r. reflexivity.
Qed.

Lemma Array_from_descending (min max : Z) :
  Z.abs min <= MAX_SAFE -> 0 <= max -> max < min ->
  Array_from (bind_num (sub (Int max) (Int min)) (fun d => add d (Int 1)))
             (fun i => add (Int min) (Int i))
  = Ids [].
Proof.
  intros Smin Hmax Hlt.
  assert (HM : MAX_SAFE = 9007199254740992) by reflexivity.
  cbn [sub bind_num]. rewrite exact_safe by lia. cbn [bind_num add].
  rewrite exact_safe by lia.
  unfold Array_from, ToLength.
  replace (Z.min (Z.max (max - min + 1) 0) (MAX_SAFE - 1)) with 0 by lia.
  reflexivity.
Qed.

Lemma Array_from_NaN (a b : number) :
  a = NaN \/ b = NaN ->
  Array_from (bind_num (sub b a) (fun d => add d (Int 1)))
             (fun i => add a (Int i))
  = Ids [].
Proof.
  intros [-> | ->]; [destruct b|destruct a]; reflexivity.
Qed.

(** X2: only the first two dash-separated pieces of a spec are looked at:
    whatever follows a second dash is ignored. *)
Theorem range_uses_first_two_pieces (t1 t2 rest : string) :
  includes "-" t1 = false -> includes "-" t2 = false ->
  idList (t1 ++ "-" ++ t2 ++ "-" ++ rest) = idList (t1 ++ "-" ++ t2).
Proof.
  intros H1 H2.
  rewrite (idList_range_pieces t1 t2 ("-" ++ rest) H1 H2)
    by (right; exists rest; reflexivity).
  rewrite (idList_range_two t1 t2 H1 H2). reflexivity.
Qed.

Lemma range_uses_first_two_pieces_witness :
  idList ("1" ++ "-" ++ "5" ++ "-" ++ "9") = idList ("1" ++ "-" ++ "5").
Proof. exact (range_uses_first_two_pieces "1" "5" "9" eq_refl eq_refl). Defined.

(** X1: A range whose upper piece is below its lower piece, or one of whose
    pieces is not a number, gives the empty identifier list: the script
    logs it and serves without querying anything. *)
Theorem degenerate_range_is_empty (t1 t2 : string) :
  includes "-" t1 = false -> includes "-" t2 = false ->
  Number t1 = NaN \/ Number t2 = NaN
  \/ (exists min max, Number t1 = Int min /\ Number t2 = Int max /\ max < min) ->
  idList (t1 ++ "-" ++ t2) = Ids []
  /\ forall env node file,
       script env [node; file; t1 ++ "-" ++ t2]
       = ([ConsoleLog (ProcessingIDs [])], Serving).
Proof.
  intros H1 H2 Hdeg.
  assert (E : idList (t1 ++ "-" ++ t2) = Ids []).
  { rewrite (idList_range_two t1 t2 H1 H2).
    destruct Hdeg as [Ha|[Hb|(min & max & Ha & Hb & Hlt)]].
    - apply Array_from_NaN. left. exact Ha.
    - apply Array_from_NaN. right. exact Hb.
    - rewrite Ha, Hb. apply Array_from_descending; [|exact (Number_unsigned _ _ H2 Hb)|exact Hlt].
      exact (Number_Int_safe _ _ Ha). }
  split; [exact E|].
  intros env node file. unfold script.
  change (args_of [node; file; t1 ++ "-" ++ t2]) with (t1 ++ "-" ++ t2).
  rewrite E. reflexivity.
Qed.

Lemma degenerate_range_is_empty_witness :
  idList ("abc" ++ "-" ++ "5") = Ids []
  /\ forall env node file,
       script env [node; file; "abc" ++ "-" ++ "5"]
       = ([ConsoleLog (ProcessingIDs [])], Serving).
Proof.
  exact (degenerate_range_is_empty "abc" "5" eq_refl eq_refl (or_introl eq_refl)).
Defined.

(** X3: the dash wins over the comma: when a spec holds a dash and one of its
    first two dash-separated pieces holds a comma, that piece is not a
    number and the identifier list is empty. *)
Theorem comma_inside_range_gives_empty (t1 t2 tail : string) :
  includes "-" t1 = false -> includes "-" t2 = false ->
  tail = "" \/ (exists r, tail = String "-" r) ->
  includes "," t1 = true \/ includes "," t2 = true ->
  idList (t1 ++ "-" ++ t2 ++ tail) = Ids [].
Proof.
  intros H1 H2 Htail Hc.
  rewrite (idList_range_pieces t1 t2 tail H1 H2 Htail).
  apply Array_from_NaN.
  destruct Hc as [Hc|Hc]; [left|right]; exact (Number_comma _ Hc).
Qed.

Lemma comma_inside_range_gives_empty_witness :
  idList ("1" ++ "-" ++ "3,5" ++ "") = Ids []
  /\ idList ("1,2" ++ "-" ++ "5" ++ "") = Ids [].
Proof.
  split.
  - exact (comma_inside_range_gives_empty "1" "3,5" "" eq_refl eq_refl
             (or_introl eq_refl) (or_intror eq_refl)).
  - exact (comma_inside_range_gives_empty "1,2" "5" "" eq_refl eq_refl
             (or_introl eq_refl) (or_introl eq_refl)).
Defined.

(** X4: A spec that starts with a dash is a range from 0: the empty first piece
    reads as 0, so [-3] and [-3-5] both give 0, 1, 2, 3. *)
Theorem leading_dash_is_range_from_zero (t tail : string) (max : Z) :
  includes "-" t = false ->
  tail = "" \/ (exists r, tail = String "-" r) ->
  Number t = Int max -> max + 1 <= MAX_ARRAY_LENGTH ->
  idList ("-" ++ t ++ tail) = Ids (map Int (inclusive 0 max)).
Proof.
  intros Ht Htail Hmax Hlen.
  change ("-" ++ t ++ tail) with ("" ++ "-" ++ t ++ tail).
  rewrite (idList_range_pieces "" t tail eq_refl Ht Htail), Hmax.
  change (Number "") with (Int 0).
  apply Array_from_ascending.
  - discriminate.
  - exact (Number_Int_safe _ _ Hmax).
  - exact (Number_unsigned _ _ Ht Hmax).
  - lia.
Qed.

Lemma leading_dash_is_range_from_zero_witness :
  idList ("-" ++ "3" ++ "-5") = Ids (map Int (inclusive 0 3)).
Proof.
  refine (leading_dash_is_range_from_zero "3" "-5" 3 eq_refl
            (or_intror (ex_intro _ "5" eq_refl)) eq_refl _).
  discriminate.
Defined.

(** *** Lists *)

Lemma split_snoc (sep : ascii) (s : string) :
  split sep (s ++ String sep EmptyString) = (split sep s ++ [EmptyString])%list.
Proof.
  induction s as [|c s IH]; cbn [append split].
  - rewrite Ascii.eqb_refl. reflexivity.
  - rewrite IH. destruct (Ascii.eqb c sep); [reflexivity|].
    pose proof (split_not_nil sep s) as Hnn.
    destruct (split sep s); [contradiction|reflexivity].
Qed.

(** X5: an empty piece of a list reads as the identifier 0: a comma at the end
    of the spec appends 0 to the list, a comma at its start puts 0 first. *)
Theorem stray_comma_adds_zero (s : string) :
  includes "-" s = false ->
  idList (s ++ ",") = Ids (map Number (split "," s) ++ [Int 0])
  /\ idList ("," ++ s) = Ids (Int 0 :: map Number (split "," s)).
Proof.
  intros Hs. unfold idList. split.
  - rewrite !includes_app, Hs. cbn [includes orb]. rewrite orb_true_r.
    rewrite (split_snoc "," s), map_app. reflexivity.
  - cbn [append includes split]. rewrite Hs. reflexivity.
Qed.

Lemma stray_comma_adds_zero_witness :
  idList ("5,7" ++ ",") = Ids (map Number (split "," "5,7") ++ [Int 0])
  /\ idList ("," ++ "5,7") = Ids (Int 0 :: map Number (split "," "5,7")).
Proof. exact (stray_comma_adds_zero "5,7" eq_refl). Defined.

Lemma Number_trim (a b : string) : trim a = trim b -> Number a = Number b.
Proof. unfold Number. intros ->. reflexivity. Qed.

Lemma map_Number_trim (pieces pieces' : list string) :
  map trim pieces = map trim pieces' -> map Number pieces = map Number pieces'.
Proof.
  revert pieces'. induction pieces as [|a l IH]; intros [|b l'] H;
    try discriminate; [reflexivity|].
  cbn [map] in *. injection H as Hab Hl.
  rewrite (Number_trim a b Hab), (IH l' Hl). reflexivity.
Qed.

Lemma includes_join_sep (sep : ascii) (pieces : list string) :
  Forall (fun t => includes sep t = false) pieces ->
  includes sep (join (String sep EmptyString) pieces)
  = (2 <=? List.length pieces)%nat.
Proof.
  intros H. destruct H as [|t ts Ht Hts]; [reflexivity|].
  destruct ts as [|t' ts]; [exact Ht|].
  change (join (String sep EmptyString) (t :: t' :: ts))
    with (t ++ String sep (join (String sep EmptyString) (t' :: ts))).
  rewrite includes_app. cbn [includes]. rewrite Ascii.eqb_refl, orb_true_r.
  reflexivity.
Qed.

(** X6: white space around the pieces of a list does not matter: two specs
    whose comma-separated pieces agree once trimmed give the same result. *)
Theorem list_pieces_are_trimmed (pieces pieces' : list string) :
  pieces <> [] ->
  Forall (fun t => includes "," t = false /\ includes "-" t = false) pieces ->
  Forall (fun t => includes "," t = false /\ includes "-" t = false) pieces' ->
  map trim pieces = map trim pieces' ->
  idList (join "," pieces) = idList (join "," pieces').
Proof.
  intros Hne H H' Htrim.
  assert (Hlen : List.length pieces = List.length pieces')
    by (rewrite <- (length_map trim pieces), Htrim; apply length_map).
  assert (Hne' : pieces' <> [])
    by (destruct pieces, pieces'; try discriminate; congruence).
  assert (Hc : forall l, Forall (fun t => includes "," t = false /\ includes "-" t = false) l ->
            Forall (fun t => includes "," t = false) l
            /\ Forall (fun t => includes "-" t = false) l).
  { intros l Hl. split; revert Hl; apply Forall_impl; intros t [? ?]; assumption. }
  destruct (Hc _ H) as [Hcomma Hdash]. destruct (Hc _ H') as [Hcomma' Hdash'].
  unfold idList.
  rewrite (includes_join "-" "," pieces eq_refl Hdash).
  rewrite (includes_join "-" "," pieces' eq_refl Hdash').
  rewrite (includes_join_sep "," pieces Hcomma), (includes_join_sep "," pieces' Hcomma').
  rewrite Hlen.
  destruct (2 <=? List.length pieces')%nat; [|reflexivity].
  rewrite (split_join "," pieces Hne Hcomma), (split_join "," pieces' Hne' Hcomma').
  rewrite (map_Number_trim pieces pieces' Htrim). reflexivity.
Qed.

Lemma list_pieces_are_trimmed_witness :
  idList (join "," ["5"; " 7"; "9 "]) = idList (join "," ["5"; "7"; "9"]).
Proof.
  refine (list_pieces_are_trimmed ["5"; " 7"; "9 "] ["5"; "7"; "9"] _ _ _ eq_refl).
  - discriminate.
  - repeat constructor.
  - repeat constructor.
Defined.

Lemma idList_numerals_witness :
  idList (join "," (map numeral [[4; 2]; [7]; [4; 2]]%N))
  = Ids (map (fun ds => Int (Z.of_N (base10 ds))) [[4; 2]; [7]; [4; 2]]%N).
Proof.
  refine (idList_numerals [[4; 2]; [7]; [4; 2]]%N _ _).
  - cbn [List.length]. lia.
  - repeat constructor; try discriminate.
Defined.

End ParserMore.

(** ** The content generator: edge behaviour *)

Module GeneratorMore.
Import JS World Generator Spec Stubs More.
Import FenceFacts GeneratorSpec.
Open Scope js_scope.

(** *** No fence marker survives line 90 *)

(** X8: the global replacement of line 90 leaves no fence marker behind,
    wherever the markers were, so none reaches [JSON.parse]; it changes
    exactly the strings that hold a marker, and applying it twice is the
    same as applying it once. *)
Theorem no_fence_marker_survives (s : string) :
  occurs "```" (replace_fences s) = false
  /\ occurs "```" (cleaned s) = false
  /\ (replace_fences s = s <-> occurs "```" s = false)
  /\ replace_fences (replace_fences s) = replace_fences s.
Proof.
  split; [apply replace_fences_clean|].
  split; [apply occurs_trim, replace_fences_clean|].
  split; [split|].
  - intros E. rewrite <- E. apply replace_fences_clean.
  - apply replace_fences_fixed.
  - apply replace_fences_fixed, replace_fences_clean.
Qed.

(** *** The shapes of a 2xx answer *)

Lemma bind_ret_l {A B} (a : A) (k : A -> M B) : bind (lift (Normal a)) k = k a.
Proof. unfold bind, lift. destruct (k a). reflexivity. Qed.





Lemma attempt_fulfilled (env : Env) (s : string) (d : value) :
  axios_post env (slice0 1000 s) = Fulfilled d ->
  attempt env (VString s)
  = bind ([Post (slice0 1000 s)], Normal d)
         (fun response_data =>
            aiResponse <- completion_content response_data ;;
            strip_and_parse env aiResponse).
Proof.
  intros Hpost. unfold attempt. cbn [call_slice0].
  rewrite bind_ret_l, post_performs, Hpost. reflexivity.
Qed.

(** X10: A 2xx answer that cannot be read as a completion (its body is [null],
    or its content is a truthy value other than a string) is reported on
    the OpenRouter error line as a [TypeError] and gives [null]; the request
    was sent, and nothing is parsed. *)
Theorem unreadable_answer_is_an_api_error (env : Env) (s : string) (d : value) :
  s <> "" ->
  axios_post env (slice0 1000 s) = Fulfilled d ->
  nullish d = true
  \/ (exists v, completion_content d = ([], Normal v) /\ is_string v = false) ->
  processDataWithAI env (VString s)
  = ([Post (slice0 1000 s); ConsoleError (OpenRouterError TypeError)],
     Normal VNull).
Proof.
  intros Hs Hpost Hbad.
  destruct s as [|c s]; [contradiction|].
  rewrite processDataWithAI_string, (attempt_fulfilled env _ d Hpost).
  destruct Hbad as [Hd|(v & Hv & Hstr)].
  - destruct d; try discriminate; reflexivity.
  - cbn [bind]. rewrite Hv. cbn [bind].
    destruct v; try discriminate; reflexivity.
Qed.

Lemma unreadable_answer_is_an_api_error_witness :
  let env := answering [5] (Fulfilled (reply_of (VNumber (Int 42)))) in
  processDataWithAI env (VString "Q A Cat")
  = ([Post (slice0 1000 "Q A Cat"); ConsoleError (OpenRouterError TypeError)],
     Normal VNull).
Proof.
  refine (unreadable_answer_is_an_api_error
            (answering [5] (Fulfilled (reply_of (VNumber (Int 42)))))
            "Q A Cat" (reply_of (VNumber (Int 42))) _ eq_refl
            (or_intror (ex_intro _ (VNumber (Int 42)) (conj eq_refl eq_refl)))).
  discriminate.
Defined.

(** *** A [null] result and the console *)

Lemma attempt_null (env : Env) (s : string) :
  result (attempt env (VString s)) = Normal VNull ->
  In (ConsoleError JSONParseError) (trace (attempt env (VString s)))
  \/ exists d c,
       axios_post env (slice0 1000 s) = Fulfilled d
       /\ completion_content d = ([], Normal (VString c))
       /\ JSON_parse env (cleaned c) = Some VNull
       /\ trace (attempt env (VString s)) = [Post (slice0 1000 s)].
Proof.
  destruct (axios_post env (slice0 1000 s)) as [d|message r] eqn:Hpost.
  - rewrite (attempt_fulfilled env s d Hpost). cbn [bind].
    destruct (completion_content_reads d) as [Ht _].
    destruct (completion_content d) as [t [ai|e]] eqn:Hc; cbn [trace fst] in Ht; subst t;
      cbn [bind]; [|cbn; discriminate].
    destruct ai as [| | | |body| |]; try (cbn; discriminate).
    unfold strip_and_parse, parse_or_null. cbn [call_trim lift bind].
    change (trim (replace_fences (trim body))) with (cleaned body).
    destruct (JSON_parse env (cleaned body)) as [v|] eqn:Hp.
    + cbn. intros [= ->]. right. exists d, body. repeat split; reflexivity || assumption.
    + cbn. intros _. left. right. left. reflexivity.
  - unfold attempt. cbn [call_slice0]. rewrite bind_ret_l, post_performs, Hpost.
    cbn. discriminate.
Qed.

(** X11: whenever [processDataWithAI] returns [null], either it wrote a line to
    the error stream, or the one silent case applies: the request of this
    call was fulfilled, line 87 read a string from the answer, and
    [JSON.parse] returned [null] for that string once cleaned; the request
    is then the only event. *)
Theorem null_result_is_explained (env : Env) (text : value) :
  result (processDataWithAI env text) = Normal VNull ->
  (exists l, In (ConsoleError l) (trace (processDataWithAI env text)))
  \/ (exists s d c,
        text = VString s
        /\ axios_post env (slice0 1000 s) = Fulfilled d
        /\ completion_content d = ([], Normal (VString c))
        /\ JSON_parse env (cleaned c) = Some VNull
        /\ trace (processDataWithAI env text) = [Post (slice0 1000 s)]).
Proof.
  destruct (is_string text) eqn:Es.
  2:{ rewrite (processDataWithAI_guard env text (or_introl Es)).
      intros _. left. eexists. cbn [trace fst In]. left. reflexivity. }
  destruct text as [| | | |s| |]; try discriminate.
  destruct s as [|c s].
  { intros _. left. eexists. cbn [trace fst In]. left. reflexivity. }
  rewrite processDataWithAI_string, result_try_catch, trace_try_catch.
  destruct (result (attempt env (VString (String c s)))) as [v|e] eqn:E.
  - intros [= ->]. destruct (attempt_null env _ E) as [Hin|(d & b & Hd & Hc & Hp & Ht)].
    + left. eexists. exact Hin.
    + right. exists (String c s), d, b. repeat split; assumption.
  - intros _. left. exists (OpenRouterError e).
    apply in_or_app. right.
    destruct e as [| | |message [d|]]; left; reflexivity.
Qed.

Lemma null_result_is_explained_witness :
  let env := marked_env "null" in
  (exists l, In (ConsoleError l) (trace (processDataWithAI env (VString "Q A Cat"))))
  \/ (exists s d c,
        VString "Q A Cat" = VString s
        /\ axios_post env (slice0 1000 s) = Fulfilled d
        /\ completion_content d = ([], Normal (VString c))
        /\ JSON_parse env (cleaned c) = Some VNull
        /\ trace (processDataWithAI env (VString "Q A Cat")) = [Post (slice0 1000 s)]).
Proof.
  exact (null_result_is_explained (marked_env "null") (VString "Q A Cat") eq_refl).
Defined.

(** The silent case and a logged one, evaluated: a completion that is the
    text [null], and one that is not JSON. *)
Example silent_and_logged_null :
  processDataWithAI (marked_env "null") (VString "Q A Cat")
  = ([Post "Q A Cat"], Normal VNull)
  /\ processDataWithAI (marked_env "not json") (VString "Q A Cat")
     = ([Post "Q A Cat"; ConsoleError JSONParseError;
         ConsoleLog (RawJSONString "not json")], Normal VNull).
Proof. split; reflexivity. Qed.

End GeneratorMore.

(** ** The batch orchestrator: edge behaviour *)

Module OrchestratorMore.
Import JS Parser World Generator Orchestrator Spec Stubs More.
Import FenceFacts ParserSpec ParserMore GeneratorSpec OrchestratorSpec GeneratorMore.
Open Scope js_scope.

Lemma prompt_nonempty (entry : source_row) :
  exists c r, prompt entry = String c r.
Proof.
  unfold prompt. destruct (text_of (question entry)); cbn [append]; eauto.
Qed.

Lemma processDataWithAI_posts (env : Env) (c : ascii) (s : string) :
  posts (trace (processDataWithAI env (VString (String c s))))
  = [slice0 1000 (String c s)].
Proof.
  rewrite processDataWithAI_string, trace_try_catch.
  pose proof (attempt_posts env (String c s)) as Hp.
  destruct (result (attempt env (VString (String c s)))) as [v|e]; [exact Hp|].
  rewrite posts_app, Hp. destruct (on_error_null e) as [_ ->]. reflexivity.
Qed.

Lemma entry_trace_posts (env : Env) (id : number) :
  posts (entry_trace env id) =
  match error (select_eq env id), data (select_eq env id) with
  | None, Some (entry :: _) => [slice0 1000 (prompt entry)]
  | _, _ => []
  end.
Proof.
  unfold entry_trace. cbn [posts].
  destruct (error (select_eq env id)); [reflexivity|].
  destruct (data (select_eq env id)) as [[|entry rest]|]; try reflexivity.
  cbn [posts]. rewrite posts_app.
  destruct (prompt_nonempty entry) as (c & r & ->).
  rewrite processDataWithAI_posts.
  destruct (accepted _); [|reflexivity].
  destruct (insert env _); reflexivity.
Qed.

(** *** Queries, requests and inserts *)

(** X12: for one identifier there is exactly one query; a completion request is
    made only when the query came back without error and with a row, it is
    made once (there is no retry) and from the first row alone; there is at
    most one insert, and none without a request. Over a batch, the
    identifiers are queried once each in the order given, repeated ones
    included. *)
Theorem one_query_one_request_one_insert (env : Env) :
  (forall id,
      selects (trace (process_entry env id)) = [id]
      /\ posts (trace (process_entry env id))
         = match error (select_eq env id), data (select_eq env id) with
           | None, Some (entry :: _) => [slice0 1000 (prompt entry)]
           | _, _ => []
           end
      /\ (List.length (inserts (trace (process_entry env id)))
          <= List.length (posts (trace (process_entry env id))))%nat)
  /\ (forall ids,
        selects (trace (processEntries env ids)) = ids
        /\ (List.length (inserts (trace (processEntries env ids)))
            <= List.length (posts (trace (processEntries env ids))))%nat
        /\ (List.length (posts (trace (processEntries env ids)))
            <= List.length ids)%nat).
Proof.
  assert (Hone : forall id,
            (List.length (inserts (entry_trace env id))
             <= List.length (posts (entry_trace env id)))%nat
            /\ (List.length (posts (entry_trace env id)) <= 1)%nat).
  { intros id. rewrite entry_trace_inserts, entry_trace_posts.
    destruct (error (select_eq env id)); [cbn; lia|].
    destruct (data (select_eq env id)) as [[|entry rest]|]; try (cbn; lia).
    destruct (accepted _); cbn; lia. }
  split.
  - intros id. rewrite process_entry_spec. cbn [trace fst].
    split; [apply entry_trace_selects|]. split; [apply entry_trace_posts|].
    apply Hone.
  - intros ids. rewrite processEntries_spec. cbn [trace fst].
    split; [apply selects_flat_map|].
    induction ids as [|id ids [IH1 IH2]]; [cbn; lia|].
    cbn [flat_map List.length]. rewrite inserts_app, posts_app, !length_app.
    destruct (Hone id). lia.
Qed.

Lemma slice0_append (n : nat) (a b : string) :
  (n <= String.length a)%nat -> slice0 n (a ++ b) = slice0 n a.
Proof.
  revert a. induction n as [|n IH]; intros a H.
  - destruct a, b; reflexivity.
  - destruct a as [|c a]; [cbn in H; lia|].
    cbn [append slice0]. rewrite IH by (cbn in H; lia). reflexivity.
Qed.

(** X13: the request is cut to 1000 characters after the three columns are
    joined: when the question alone has 1000 characters or more, the message
    sent is the start of the question, and the answer and the category never
    reach the model. *)
Theorem long_question_crowds_out_the_rest
    (env : Env) (id : number) (entry : source_row) (rest : list source_row)
    (q : string) :
  error (select_eq env id) = None ->
  data (select_eq env id) = Some (entry :: rest) ->
  question entry = Some q -> (1000 <= String.length q)%nat ->
  posts (trace (process_entry env id)) = [slice0 1000 q].
Proof.
  intros He Hd Hq Hlen.
  rewrite process_entry_spec. cbn [trace fst].
  rewrite entry_trace_posts, He, Hd. unfold prompt. rewrite Hq. cbn [text_of].
  rewrite (slice0_append 1000 q _ Hlen). reflexivity.
Qed.

Lemma long_question_crowds_out_the_rest_witness :
  let env := holding (long_question 1000) (Fulfilled (reply text_T)) in
  posts (trace (process_entry env (Int 1)))
  = [slice0 1000 (string_of_list_ascii (repeat "q"%char 1000))].
Proof.
  refine (long_question_crowds_out_the_rest
            (holding (long_question 1000) (Fulfilled (reply text_T))) (Int 1)
            (long_question 1000) [] _ eq_refl eq_refl eq_refl _).
  apply Nat.leb_le. vm_compute. reflexivity.
Defined.

(** *** Requests that fail or come back empty *)

Lemma process_entry_of_generated
    (env : Env) (id : number) (entry : source_row) (rest : list source_row)
    (t : list event) (v : value) :
  error (select_eq env id) = None ->
  data (select_eq env id) = Some (entry :: rest) ->
  processDataWithAI env (VString (prompt entry)) = (t, Normal v) ->
  trace (process_entry env id)
  = (Select id :: ConsoleLog (ProcessingEntry id) :: t
     ++ (if accepted v then
           [Insert (row_of entry v);
            match insert env (row_of entry v) with
            | Some message => ConsoleError (ErrorInserting id message)
            | None => ConsoleLog (Saved id)
            end]
         else [ConsoleLog (NoValidContent id)]))%list.
Proof.
  intros He Hd Hg. rewrite process_entry_spec. cbn [trace fst].
  unfold entry_trace, generated, returned. rewrite He, Hd, Hg. reflexivity.
Qed.

Lemma processDataWithAI_rejected
    (env : Env) (s message : string) (r : option value) :
  s <> "" ->
  axios_post env (slice0 1000 s) = Rejected message r ->
  processDataWithAI env (VString s)
  = (Post (slice0 1000 s)
     :: ConsoleError (OpenRouterError (AxiosError message r))
     :: match r with
        | Some d => [ConsoleLog (FullAPIError d)]
        | None => []
        end,
     Normal VNull).
Proof.
  intros Hs Hpost. destruct s as [|c s]; [contradiction|].
  rewrite processDataWithAI_string. unfold attempt. cbn [call_slice0].
  rewrite bind_ret_l, post_performs, Hpost.
  destruct r; reflexivity.
Qed.

Lemma processDataWithAI_default (env : Env) (s : string) (d v : value) :
  s <> "" ->
  axios_post env (slice0 1000 s) = Fulfilled d ->
  completion_content d = ([], Normal (VString "{}")) ->
  JSON_parse env "{}" = Some v ->
  processDataWithAI env (VString s) = ([Post (slice0 1000 s)], Normal v).
Proof.
  intros Hs Hpost Hc Hp. destruct s as [|c s]; [contradiction|].
  rewrite processDataWithAI_string, (attempt_fulfilled env _ d Hpost).
  cbn [bind]. rewrite Hc. cbn [bind].
  unfold strip_and_parse, parse_or_null. cbn [call_trim lift bind].
  change (trim (replace_fences (trim "{}"))) with "{}".
  rewrite Hp. reflexivity.
Qed.

(** X14: when the completion request is rejected (a non-2xx answer or a network
    failure), the identifier is skipped after that single request: the
    error is logged, with the body of the answer when there is one, nothing
    is inserted and the request is not sent again. *)
Theorem rejected_request_is_skipped
    (env : Env) (id : number) (entry : source_row) (rest : list source_row)
    (message : string) (r : option value) :
  error (select_eq env id) = None ->
  data (select_eq env id) = Some (entry :: rest) ->
  axios_post env (slice0 1000 (prompt entry)) = Rejected message r ->
  trace (process_entry env id)
  = ([Select id; ConsoleLog (ProcessingEntry id);
      Post (slice0 1000 (prompt entry));
      ConsoleError (OpenRouterError (AxiosError message r))]
     ++ match r with
        | Some d => [ConsoleLog (FullAPIError d)]
        | None => []
        end
     ++ [ConsoleLog (NoValidContent id)])%list.
Proof.
  intros He Hd Hpost.
  assert (Hs : prompt entry <> "")
    by (destruct (prompt_nonempty entry) as (c & s & ->); discriminate).
  rewrite (process_entry_of_generated env id entry rest _ _ He Hd
             (processDataWithAI_rejected env _ message r Hs Hpost)).
  destruct r; reflexivity.
Qed.

Lemma rejected_request_is_skipped_witness :
  let env := answering [5] (Rejected "Request failed with status code 429"
                              (Some (VString "rate limited"))) in
  trace (process_entry env (Int 5))
  = ([Select (Int 5); ConsoleLog (ProcessingEntry (Int 5));
      Post (slice0 1000 (prompt (entry_of 5)));
      ConsoleError (OpenRouterError
                      (AxiosError "Request failed with status code 429"
                         (Some (VString "rate limited"))))]
     ++ [ConsoleLog (FullAPIError (VString "rate limited"))]
     ++ [ConsoleLog (NoValidContent (Int 5))])%list.
Proof.
  exact (rejected_request_is_skipped
           (answering [5] (Rejected "Request failed with status code 429"
                             (Some (VString "rate limited"))))
           (Int 5) (entry_of 5) [] _ _ eq_refl eq_refl eq_refl).
Defined.

(** X15: when the answer carries no usable content (no choice, no message, an
    empty or missing content), line 87 puts [{}] in its place; with
    [JSON.parse] reading [{}] as the empty object, the identifier is skipped
    with the skip line alone: no error is logged and nothing is inserted. *)
Theorem empty_completion_is_skipped
    (env : Env) (id : number) (entry : source_row) (rest : list source_row)
    (d : value) :
  error (select_eq env id) = None ->
  data (select_eq env id) = Some (entry :: rest) ->
  axios_post env (slice0 1000 (prompt entry)) = Fulfilled d ->
  completion_content d = ([], Normal (VString "{}")) ->
  JSON_parse env "{}" = Some (VObject []) ->
  trace (process_entry env id)
  = [Select id; ConsoleLog (ProcessingEntry id);
     Post (slice0 1000 (prompt entry)); ConsoleLog (NoValidContent id)].
Proof.
  intros He Hd Hpost Hc Hp.
  assert (Hs : prompt entry <> "")
    by (destruct (prompt_nonempty entry) as (c & s & ->); discriminate).
  rewrite (process_entry_of_generated env id entry rest _ _ He Hd
             (processDataWithAI_default env _ d _ Hs Hpost Hc Hp)).
  reflexivity.
Qed.

Lemma empty_completion_is_skipped_witness :
  let env := answering [5] (Fulfilled (VObject [("choices", VArray [])])) in
  trace (process_entry env (Int 5))
  = [Select (Int 5); ConsoleLog (ProcessingEntry (Int 5));
     Post (slice0 1000 (prompt (entry_of 5))); ConsoleLog (NoValidContent (Int 5))].
Proof.
  exact (empty_completion_is_skipped
           (answering [5] (Fulfilled (VObject [("choices", VArray [])])))
           (Int 5) (entry_of 5) [] (VObject [("choices", VArray [])])
           eq_refl eq_refl eq_refl eq_refl eq_refl).
Defined.

(** *** The outcome line *)

Lemma generator_event_app (t u : list event) :
  Forall generator_event t -> Forall generator_event u ->
  Forall generator_event (t ++ u).
Proof. intros Ht Hu. apply Forall_app. split; assumption. Qed.

Lemma strip_and_parse_events (env : Env) (aiResponse : value) :
  Forall generator_event (trace (strip_and_parse env aiResponse)).
Proof.
  destruct aiResponse; try (constructor; fail).
  unfold strip_and_parse, parse_or_null. cbn [call_trim lift bind].
  destruct (JSON_parse env _); cbn; repeat constructor.
Qed.

Lemma attempt_events (env : Env) (text : value) :
  Forall generator_event (trace (attempt env text)).
Proof.
  destruct text as [| | | |s| |]; try (constructor; fail).
  unfold attempt. rewrite trace_bind. cbn [call_slice0 lift result trace fst snd app].
  rewrite trace_bind, post_performs. cbn [result trace fst snd].
  destruct (axios_post env (slice0 1000 s)) as [d|message r];
    [|repeat constructor].
  apply (generator_event_app [_]); [repeat constructor|].
  rewrite trace_bind.
  destruct (completion_content_reads d) as [-> _].
  destruct (result (completion_content d)) as [ai|e]; [|constructor].
  apply strip_and_parse_events.
Qed.

Lemma processDataWithAI_events (env : Env) (text : value) :
  Forall generator_event (trace (processDataWithAI env text)).
Proof.
  destruct (is_string text) eqn:Es;
    [|rewrite (processDataWithAI_guard env text (or_introl Es)); repeat constructor].
  destruct text as [| | | |s| |]; try discriminate.
  destruct s as [|c s]; [repeat constructor|].
  rewrite processDataWithAI_string, trace_try_catch.
  pose proof (attempt_events env (VString (String c s))) as H.
  destruct (result (attempt env (VString (String c s)))) as [v|e]; [exact H|].
  apply generator_event_app; [exact H|].
  destruct e as [| | |message [d|]]; repeat constructor.
Qed.

Lemma generator_event_no_outcome (id : number) (e : event) :
  generator_event e -> ~ outcome_line id e.
Proof.
  intros He [(m & H)|[H|[H|[(m & H)|H]]]]; subst e; exact He.
Qed.

Ltac no_outcome :=
  let H := fresh in
  intros [(? & H)|[H|[H|[(? & H)|H]]]]; discriminate H.

(** X16: every identifier leaves exactly one outcome line, and it is the last
    thing it does: the fetch error, "no data", the skip, the insert error or
    "saved". The line is "saved" exactly when the destination accepted a
    row for the identifier. *)
Theorem one_outcome_line_per_identifier (env : Env) (id : number) :
  exists t l,
    trace (process_entry env id) = (t ++ [l])%list
    /\ outcome_line id l
    /\ Forall (fun e => ~ outcome_line id e) t
    /\ (l = ConsoleLog (Saved id) ->
        exists row, stored env (trace (process_entry env id)) = [row])
    /\ (l <> ConsoleLog (Saved id) ->
        stored env (trace (process_entry env id)) = []).
Proof.
  rewrite process_entry_spec. cbn [trace fst].
  unfold stored. rewrite entry_trace_inserts. unfold entry_trace.
  destruct (error (select_eq env id)) as [message|].
  { exists [Select id], (ConsoleError (ErrorFetching id message)).
    split; [reflexivity|]. split; [left; eexists; reflexivity|].
    split; [repeat constructor; no_outcome|].
    split; [discriminate|reflexivity]. }
  assert (Hnone : exists t l,
            (Select id :: [ConsoleLog (NoDataFound id)])%list = (t ++ [l])%list
            /\ outcome_line id l
            /\ Forall (fun e => ~ outcome_line id e) t
            /\ (l = ConsoleLog (Saved id) -> exists row, filter
                  (fun r => match insert env r with None => true | Some _ => false end)
                  [] = [row])
            /\ (l <> ConsoleLog (Saved id) -> filter
                  (fun r => match insert env r with None => true | Some _ => false end)
                  [] = [])).
  { exists [Select id], (ConsoleLog (NoDataFound id)).
    split; [reflexivity|]. split; [right; left; reflexivity|].
    split; [repeat constructor; no_outcome|].
    split; [discriminate|reflexivity]. }
  destruct (data (select_eq env id)) as [[|entry rest]|]; try exact Hnone.
  clear Hnone.
  pose proof (processDataWithAI_events env (VString (prompt entry))) as Hg.
  set (g := trace (processDataWithAI env (VString (prompt entry)))) in *.
  assert (Hpre : Forall (fun e => ~ outcome_line id e)
                   (Select id :: ConsoleLog (ProcessingEntry id) :: g)).
  { constructor; [no_outcome|]. constructor; [no_outcome|].
    revert Hg. apply Forall_impl. intros e. apply generator_event_no_outcome. }
  destruct (accepted (generated env entry)).
  - cbn [filter].
    destruct (insert env (row_of entry (generated env entry))) as [message|].
    + exists (Select id :: ConsoleLog (ProcessingEntry id) :: g
              ++ [Insert (row_of entry (generated env entry))])%list,
             (ConsoleError (ErrorInserting id message)).
      split; [cbn [app]; rewrite <- app_assoc; reflexivity|].
      split; [right; right; right; left; eexists; reflexivity|].
      split; [|split; [discriminate|reflexivity]].
      change (Select id :: ConsoleLog (ProcessingEntry id) :: g
              ++ [Insert (row_of entry (generated env entry))])%list
        with ((Select id :: ConsoleLog (ProcessingEntry id) :: g)
              ++ [Insert (row_of entry (generated env entry))])%list.
      apply Forall_app. split; [exact Hpre|]. repeat constructor. no_outcome.
    + exists (Select id :: ConsoleLog (ProcessingEntry id) :: g
              ++ [Insert (row_of entry (generated env entry))])%list,
             (ConsoleLog (Saved id)).
      split; [cbn [app]; rewrite <- app_assoc; reflexivity|].
      split; [right; right; right; right; reflexivity|].
      split; [|split; [intros _; eexists; reflexivity|intros H; contradiction H; reflexivity]].
      change (Select id :: ConsoleLog (ProcessingEntry id) :: g
              ++ [Insert (row_of entry (generated env entry))])%list
        with ((Select id :: ConsoleLog (ProcessingEntry id) :: g)
              ++ [Insert (row_of entry (generated env entry))])%list.
      apply Forall_app. split; [exact Hpre|]. repeat constructor. no_outcome.
  - exists (Select id :: ConsoleLog (ProcessingEntry id) :: g),
           (ConsoleLog (NoValidContent id)).
    split; [reflexivity|]. split; [right; right; left; reflexivity|].
    split; [exact Hpre|]. split; [discriminate|reflexivity].
Qed.

(** *** The script as a whole *)









(** *** A range whose log line is too long *)










End OrchestratorMore.
